(** * A shallow embedding of [lightkurve/search.py]

    The development follows the module top-down:
    - the target-name resolver of [_query_mast] and the integer warning of
      [_search_products];
    - the product filters [_mask_kepler_products], [_mask_k2_products],
      [_mask_spoc_products] and [_filter_products];
    - the empty-result guard of [SearchResult.download] and
      [SearchResult.download_all].

    Strings are modelled as Rocq [string]s of ASCII characters: Python's
    [str.lower] is modelled by its ASCII part, and the regular expression
    class [\d] by the ASCII digits.  Numpy boolean masks are lists of
    booleans combined element-wise; astropy tables are lists of rows. *)

From Stdlib Require Import ZArith String Ascii List Bool Lia.
From Stdlib Require Import Sorted Permutation Btauto.
From Stdlib Require Import Numbers.DecimalString.
Import ListNotations.

Open Scope string_scope.
Open Scope bool_scope.

(** ** Python string primitives *)

Module PyStr.

(** [c.lower()] on an ASCII character. *)
Definition lower_char (c : ascii) : ascii :=
  let n := nat_of_ascii c in
  if (65 <=? n)%nat && (n <=? 90)%nat then ascii_of_nat (n + 32) else c.

(** [s.lower()] *)
Fixpoint lower (s : string) : string :=
  match s with
  | EmptyString => EmptyString
  | String c s' => String (lower_char c) (lower s')
  end.

(** [s.endswith(suf)] *)
Fixpoint ends_with (suf s : string) : bool :=
  String.eqb s suf ||
  match s with
  | EmptyString => false
  | String _ s' => ends_with suf s'
  end.

(** [sub in s] *)
Fixpoint contains (sub s : string) : bool :=
  String.prefix sub s ||
  match s with
  | EmptyString => false
  | String _ s' => contains sub s'
  end.

(** [s.replace(c, '')] for a one-character pattern. *)
Fixpoint remove_char (x : ascii) (s : string) : string :=
  match s with
  | EmptyString => EmptyString
  | String c s' =>
      if Ascii.eqb c x then remove_char x s' else String c (remove_char x s')
  end.

(** [s[1:]] *)
Definition drop1 (s : string) : string :=
  match s with
  | EmptyString => EmptyString
  | String _ s' => s'
  end.

(** Removes [p] from the front of [s] when [s] starts with [p]. *)
Fixpoint drop_prefix (p s : string) : option string :=
  match p, s with
  | EmptyString, _ => Some s
  | String a p', String b s' => if Ascii.eqb a b then drop_prefix p' s' else None
  | String _ _, EmptyString => None
  end.

(** [s.split(sep)] for a non-empty separator: occurrences are found left to
    right and do not overlap.  [fuel] is the length of the unread input plus
    one, so it never runs out. *)
Fixpoint split_go (fuel : nat) (sep s acc : string) : list string :=
  match fuel with
  | O => [acc ++ s]
  | S f =>
      match s with
      | EmptyString => [acc]
      | String c s' =>
          match drop_prefix sep s with
          | Some rest => acc :: split_go f sep rest EmptyString
          | None => split_go f sep s' (acc ++ String c EmptyString)
          end
      end
  end.

Definition split (sep s : string) : list string :=
  split_go (S (String.length s)) sep s EmptyString.

(** [l[-1]] on the (never empty) result of [split]. *)
Definition last_part (l : list string) : string := last l EmptyString.

(** [str(n)] for a Python [int]. *)
Definition str_of_Z (z : Z) : string :=
  match z with
  | Zneg p => "-" ++ NilEmpty.string_of_uint (Pos.to_uint p)
  | _ => NilEmpty.string_of_uint (N.to_uint (Z.to_N z))
  end.

Definition is_digit (c : ascii) : bool :=
  let n := nat_of_ascii c in (48 <=? n)%nat && (n <=? 57)%nat.

Fixpoint all_digits (s : string) : bool :=
  match s with
  | EmptyString => true
  | String c s' => is_digit c && all_digits s'
  end.

Fixpoint zeros (n : nat) : string :=
  match n with
  | O => EmptyString
  | S n' => String "0" (zeros n')
  end.

(** [s.zfill(w)] for a string of digits. *)
Definition zfill (w : nat) (s : string) : string :=
  zeros (w - String.length s) ++ s.

(** Python's whitespace in the Latin-1 range that [int()] strips. *)
Definition is_space (c : ascii) : bool :=
  let n := nat_of_ascii c in
  ((9 <=? n)%nat && (n <=? 13)%nat) || ((28 <=? n)%nat && (n <=? 32)%nat).

Fixpoint lstrip (s : string) : string :=
  match s with
  | EmptyString => EmptyString
  | String c s' => if is_space c then lstrip s' else s
  end.

Definition rev_str (s : string) : string :=
  string_of_list_ascii (rev (list_ascii_of_string s)).

Definition strip (s : string) : string := rev_str (lstrip (rev_str (lstrip s))).

Definition digit_val (c : ascii) : Z := Z.of_nat (nat_of_ascii c) - 48.

(** The digits of a Python integer literal: digits, with single underscores
    allowed between two digits; [acc] is the value read so far and
    [after_digit] says whether the previous character was a digit. *)
Fixpoint read_digits (s : string) (acc : Z) (after_digit : bool) : option Z :=
  match s with
  | EmptyString => if after_digit then Some acc else None
  | String c s' =>
      if is_digit c then read_digits s' (10 * acc + digit_val c) true
      else if Ascii.eqb c "_" && after_digit then
        match s' with
        | String d _ => if is_digit d then read_digits s' acc false else None
        | EmptyString => None
        end
      else None
  end.

(** [int(s)]: [None] stands for the [ValueError] it raises. *)
Definition py_int (s : string) : option Z :=
  match strip s with
  | String "-" r => option_map Z.opp (read_digits r 0 false)
  | String "+" r => read_digits r 0 false
  | r => read_digits r 0 false
  end.

End PyStr.

Import PyStr.

(** ** The target-name resolver of [_query_mast] *)

Module Resolver.

(** [\d+$]: a greedy run of digits followed by the end of the string or by
    a newline that ends the string (Python's [$] without [re.MULTILINE]).
    Returns the digits, i.e. the regex group. *)
Fixpoint take_digits (s : string) : string * string :=
  match s with
  | EmptyString => (EmptyString, EmptyString)
  | String c s' =>
      if is_digit c then let (d, r) := take_digits s' in (String c d, r)
      else (EmptyString, s)
  end.

Definition newline : string := String (ascii_of_nat 10) EmptyString.

Definition match_digits_eol (s : string) : option string :=
  let (d, r) := take_digits s in
  match d with
  | EmptyString => None
  | _ => if String.eqb r EmptyString || String.eqb r newline then Some d else None
  end.

(** [ ?(\d+)$] after the prefix; the optional space is tried first. *)
Definition match_after_prefix (s : string) : option string :=
  match s with
  | String c s' =>
      if Ascii.eqb c " " then
        match match_digits_eol s' with
        | Some d => Some d
        | None => match_digits_eol s
        end
      else match_digits_eol s
  | EmptyString => match_digits_eol s
  end.

(** [re.match("^(a1|a2) ?(\d+)$", t).group(2)]: the alternatives are tried
    in order. *)
Fixpoint match_alts (alts : list string) (t : string) : option string :=
  match alts with
  | [] => None
  | a :: rest =>
      match match drop_prefix a t with
            | Some s => match_after_prefix s
            | None => None
            end with
      | Some d => Some d
      | None => match_alts rest t
      end
  end.

Definition kplr_match (t : string) : option string := match_alts ["kplr"; "kic"] t.
Definition ktwo_match (t : string) : option string := match_alts ["ktwo"; "epic"] t.
Definition tess_match (t : string) : option string := match_alts ["tess"; "tic"] t.

(** The computation of [exact_target_name] in [_query_mast], from
    [target_lower = str(target).lower()]; a later match overrides an earlier
    one, as the three [if] blocks do. *)
Definition exact_target_name (target_str : string) : option string :=
  let target_lower := lower target_str in
  let e1 := match kplr_match target_lower with
            | Some d => Some ("kplr" ++ zfill 9 d)
            | None => None
            end in
  let e2 := match ktwo_match target_lower with
            | Some d => Some ("ktwo" ++ zfill 9 d)
            | None => e1
            end in
  match tess_match target_lower with
  | Some d => Some (zfill 9 d)
  | None => e2
  end.

(** The [target] argument of the search functions (a [SkyCoord] is turned
    into an "ra, dec" string before it reaches the resolver). *)
Inductive target :=
| TStr (s : string)
| TInt (z : Z).

Definition str_target (t : target) : string :=
  match t with
  | TStr s => s
  | TInt z => str_of_Z z
  end.

(** The two ways [_query_mast] can produce its observations. *)
Inductive mast_query :=
| ByTargetName (name : string)
| ByConeSearch.

(** [_query_mast]: [radius] is [None] when the caller gave no radius, and
    [exact_rows name] is the number of rows MAST returns for
    [query_criteria(target_name=name, ...)]. *)
Definition query_mast (exact_rows : string -> nat) (target_str : string)
  (radius : option Z) : mast_query :=
  match exact_target_name target_str, radius with
  | Some name, None =>
      if negb (String.eqb name EmptyString) && (0 <? exact_rows name)%nat
      then ByTargetName name else ByConeSearch
  | _, _ => ByConeSearch
  end.

Definition kepler_tess_warning : string :=
  "may refer to a different Kepler or TESS target".
Definition k2_tess_warning : string :=
  "may refer to a different K2 or TESS target".

(** The [isinstance(target, int)] block at the top of [_search_products];
    the second test is written as in the source, [(0 < 200000000)]. *)
Definition int_target_warning (t : target) : option string :=
  match t with
  | TInt z =>
      if (0 <? z)%Z && (z <? 13161030)%Z then Some kepler_tess_warning
      else if (0 <? 200000000)%Z && (z <? 251813739)%Z then Some k2_tess_warning
      else None
  | TStr _ => None
  end.

(** The part of [_search_products] that precedes the product query: the
    logged warning, then [_query_mast] (with the radius forced for FFI
    searches). *)
Definition search_products_query (exact_rows : string -> nat) (t : target)
  (radius : option Z) (filetype : string) : option string * mast_query :=
  let radius' :=
    match radius with
    | None => if String.eqb (lower filetype) "ffi" then Some 0%Z else None
    | Some r => Some r
    end in
  (int_target_warning t, query_mast exact_rows (str_target t) radius').

End Resolver.

(** ** The product table and its filters *)

Module Filters.

(** The Python exceptions the filters can raise. *)
Inductive py_error :=
| ValueError
| IndexError
| UnboundLocalError
| TypeError.

Inductive result (A : Type) :=
| Ok (a : A)
| Err (e : py_error).
Arguments Ok {A} a.
Arguments Err {A} e.

Definition bind {A B} (m : result A) (k : A -> result B) : result B :=
  match m with
  | Ok a => k a
  | Err e => Err e
  end.

Notation "x <- m ;; k" := (bind m (fun x => k))
  (at level 61, m at next level, right associativity).

(** A [for] loop whose body may raise: the first exception ends it. *)
Fixpoint map_result {A B} (f : A -> result B) (l : list A) : result (list B) :=
  match l with
  | [] => Ok []
  | x :: l' => y <- f x ;; ys <- map_result f l' ;; Ok (y :: ys)
  end.

(** The columns of the joined MAST table that the filters read.  The
    [distance] column (a non-negative float of arcseconds) is modelled by an
    integer in a fixed unit: only its order matters here. *)
Record row := mkRow {
  provenance_name : string;
  description : string;
  productFilename : string;
  dataURI : string;
  distance : Z
}.

(** One line of [short_cadence_month_lookup.csv]. *)
Record lookup_row := mkLookup {
  Month : Z;
  Quarter : Z;
  StartTime : string
}.

(** Element-wise numpy operations on boolean masks. *)
Fixpoint zip_with (f : bool -> bool -> bool) (m1 m2 : list bool) : list bool :=
  match m1, m2 with
  | b1 :: m1', b2 :: m2' => f b1 b2 :: zip_with f m1' m2'
  | _, _ => []
  end.

Definition mask_and := zip_with andb.
Definition mask_or := zip_with orb.

(** [mask.sum() == 0] *)
Definition mask_empty (m : list bool) : bool := negb (existsb (fun b => b) m).

(** [prov.lower() == p] *)
Definition is_prov (p : string) (r : row) : bool :=
  String.eqb (lower (provenance_name r)) p.

(** The cadence branch shared by [_mask_kepler_products] and
    [_mask_k2_products]. *)
Definition cadence_string (cadence filetype : string) : string :=
  if String.eqb cadence "short" || String.eqb cadence "sc" then filetype ++ " Short"
  else if String.eqb cadence "any" || String.eqb cadence "both" then filetype
  else filetype ++ " Long".

(** [desc.lower().replace('-', '').endswith('q{}'.format(q))] *)
Definition quarter_match (q : Z) (r : row) : bool :=
  ends_with ("q" ++ str_of_Z q) (remove_char "-" (lower (description r))).

(** [int(description.split(' - ')[-1][1:].replace('-', ''))] *)
Definition parse_quarter (desc : string) : result Z :=
  match py_int (remove_char "-" (drop1 (last_part (split " - " desc)))) with
  | Some q => Ok q
  | None => Err ValueError
  end.

(** [dataURI.split('/')[-1].split('-')[1].split('_')[0]] *)
Definition parse_date (uri : string) : result string :=
  match nth_error (split "-" (last_part (split "/" uri))) 1 with
  | Some part => Ok (hd EmptyString (split "_" part))
  | None => Err IndexError
  end.

(** The [try] block: the first lookup line for [(m, q)]; a miss
    ([IndexError]) is passed over. *)
Definition permitted_dates (table : list lookup_row) (months : list Z) (q : Z)
  : list string :=
  flat_map (fun m =>
      match find (fun e => (Month e =? m)%Z && (Quarter e =? q)%Z) table with
      | Some e => [StartTime e]
      | None => []
      end) months.

(** The body of the month loop for one row. *)
Definition month_bit (table : list lookup_row) (months : list Z)
  (entry : row * bool * bool) : result bool :=
  let '(r, short, b) := entry in
  if short then
    q <- parse_quarter (description r) ;;
    date <- parse_date (dataURI r) ;;
    Ok (if existsb (String.eqb date) (permitted_dates table months q) then b
        else false)
  else Ok b.

(** [_mask_kepler_products] *)
Definition mask_kepler_products (table : list lookup_row) (products : list row)
  (quarter month : option (list Z)) (cadence filetype : string)
  : result (list bool) :=
  let mask := map (is_prov "kepler") products in
  if mask_empty mask then Ok mask else
  let description_string := cadence_string cadence filetype in
  let mask := mask_and mask
      (map (fun r => contains description_string (description r)) products) in
  let mask :=
    match quarter with
    | None => mask
    | Some qs =>
        let quarter_mask :=
          fold_left (fun qm q => mask_or qm (map (quarter_match q) products))
                    qs (repeat false (length products)) in
        mask_and mask quarter_mask
    end in
  match month with
  | None => Ok mask
  | Some months =>
      let is_shortcadence :=
        mask_and mask (map (fun r => contains "Short" (description r)) products) in
      map_result (month_bit table months)
                 (combine (combine products is_shortcadence) mask)
  end.

(** [_mask_k2_products]; its [campaign] argument is not used. *)
Definition mask_k2_products (products : list row) (campaign : option (list Z))
  (cadence filetype : string) : list bool :=
  let mask := map (is_prov "k2") products in
  if mask_empty mask then mask else
  let description_string := cadence_string cadence filetype in
  mask_and mask
    (map (fun r => contains description_string (description r)) products).

(** The [if]/[elif] chain of [_mask_spoc_products]: it has no [else], so an
    unrecognised filetype leaves [description_string] unbound. *)
Definition spoc_description_string (filetype : string) : result string :=
  let ft := lower filetype in
  if String.eqb ft "lightcurve" then Ok "Light curves"
  else if String.eqb ft "target pixel" then Ok "Target pixel files"
  else if String.eqb ft "ffi" then Ok "TESScut"
  else Err UnboundLocalError.

(** [_mask_spoc_products]; its [sector] argument is not used. *)
Definition mask_spoc_products (products : list row) (sector : option (list Z))
  (filetype : string) : result (list bool) :=
  let mask := map (is_prov "spoc") products in
  if mask_empty mask then Ok mask else
  description_string <- spoc_description_string filetype ;;
  Ok (mask_and mask
        (map (fun r => contains description_string (description r)) products)).

Definition is_none {A} (o : option A) : bool :=
  match o with None => true | Some _ => false end.

Definition default_provenance : list string := ["kepler"; "k2"; "spoc"].

Definition provenance_lower (provenance_name : option (list string)) : list string :=
  match provenance_name with
  | None => default_provenance
  | Some ps => map lower ps
  end.

Definition mem (s : string) (l : list string) : bool := existsb (String.eqb s) l.

(** The family stage of [_filter_products], up to the filename filter.  On
    an empty table, [np.array([])] has a float dtype and the first [~]
    raises a [TypeError]. *)
Definition family_mask (table : list lookup_row) (products : list row)
  (campaign quarter month sector : option (list Z)) (cadence : string)
  (provenance_name : option (list string)) (filetype : string)
  : result (list bool) :=
  match products with
  | [] => Err TypeError
  | _ =>
    let prov := provenance_lower provenance_name in
    let mask := repeat true (length products) in
    let mask := mask_and mask (map (fun r => negb (is_prov "kepler" r)) products) in
    mask <- (if mem "kepler" prov && is_none campaign && is_none sector then
               km <- mask_kepler_products table products quarter month cadence filetype ;;
               Ok (mask_or mask km)
             else Ok mask) ;;
    let mask := mask_and mask (map (fun r => negb (is_prov "k2" r)) products) in
    let mask := if mem "k2" prov && is_none quarter && is_none sector then
                  mask_or mask (mask_k2_products products campaign cadence filetype)
                else mask in
    let mask := mask_and mask (map (fun r => negb (is_prov "spoc" r)) products) in
    if mem "spoc" prov && is_none quarter && is_none campaign then
      sm <- mask_spoc_products products sector filetype ;;
      Ok (mask_or mask sm)
    else Ok mask
  end.

(** [uri.lower().endswith('fits') or uri.lower().endswith('fits.gz')] *)
Definition fits_filename (uri : string) : bool :=
  ends_with "fits" (lower uri) || ends_with "fits.gz" (lower uri).

(** [products[mask]] *)
Fixpoint select (mask : list bool) (products : list row) : list row :=
  match mask, products with
  | b :: mask', r :: products' => if b then r :: select mask' products' else select mask' products'
  | _, _ => []
  end.

(** The order of [products.sort(['distance', 'productFilename'])]. *)
Definition row_le (a b : row) : bool :=
  (distance a <? distance b)%Z ||
  ((distance a =? distance b)%Z && String.leb (productFilename a) (productFilename b)).

Fixpoint insert_row (x : row) (l : list row) : list row :=
  match l with
  | [] => [x]
  | y :: l' => if row_le x y then x :: l else y :: insert_row x l'
  end.

(** The order the sort produces: ascending distance, ties broken by the
    file name. *)
Definition row_order (a b : row) : Prop := row_le a b = true.

(** A stable sort on the two keys. *)
Fixpoint sort_rows (l : list row) : list row :=
  match l with
  | [] => []
  | x :: l' => insert_row x (sort_rows l')
  end.

(** [products[0:limit]] with Python's slice bounds. *)
Definition py_slice_to (n : Z) (l : list row) : list row :=
  if (0 <=? n)%Z then firstn (Z.to_nat n) l
  else firstn (length l - Z.to_nat (- n)) l.

Definition apply_limit (limit : option Z) (l : list row) : list row :=
  match limit with
  | None => l
  | Some n => py_slice_to n l
  end.

(** [_filter_products] *)
Definition filter_products (table : list lookup_row) (products : list row)
  (campaign quarter month sector : option (list Z)) (cadence : string)
  (limit : option Z) (provenance_name : option (list string)) (filetype : string)
  : result (list row) :=
  mask <- family_mask table products campaign quarter month sector cadence
                      provenance_name filetype ;;
  let mask := mask_and mask (map (fun r => fits_filename (productFilename r)) products) in
  Ok (apply_limit limit (sort_rows (select mask products))).

(** Row-wise readings of the three family masks; the lemmas below prove
    that the vectorised masks above agree with them row by row. *)
Definition kepler_row (table : list lookup_row) (quarter month : option (list Z))
  (cadence filetype : string) (r : row) : result bool :=
  let b := is_prov "kepler" r &&
           contains (cadence_string cadence filetype) (description r) &&
           match quarter with
           | None => true
           | Some qs => existsb (fun q => quarter_match q r) qs
           end in
  match month with
  | None => Ok b
  | Some months => month_bit table months (r, b && contains "Short" (description r), b)
  end.

Definition k2_row (cadence filetype : string) (r : row) : bool :=
  is_prov "k2" r && contains (cadence_string cadence filetype) (description r).

Definition spoc_row (filetype : string) (r : row) : result bool :=
  if is_prov "spoc" r then
    ds <- spoc_description_string filetype ;; Ok (contains ds (description r))
  else Ok false.

Definition ok_true (x : result bool) : bool :=
  match x with
  | Ok b => b
  | Err _ => false
  end.

(** A row the month loop of [_mask_kepler_products] visits: a Kepler row
    that passed the cadence and quarter tests and whose description
    contains "Short". *)
Definition month_candidate (quarter : option (list Z)) (cadence filetype : string)
  (r : row) : bool :=
  is_prov "kepler" r &&
  contains (cadence_string cadence filetype) (description r) &&
  match quarter with
  | None => true
  | Some qs => existsb (fun q => quarter_match q r) qs
  end &&
  contains "Short" (description r).

End Filters.

(** ** [SearchResult.download] and [SearchResult.download_all] *)

Module Download.
Import Filters.

Section Download.

(** The products a download yields ([TargetPixelFile] or [LightCurve]). *)
Variable Product : Type.

(** [self._download_one(table=...)]: the remote fetch and the file reader,
    outside this module.  It returns the warnings it emits and either the
    product read or the exception raised. *)
Variable download_one : list row -> list string * result Product.

(** [isinstance(p, TargetPixelFile)] *)
Variable is_target_pixel_file : Product -> bool.

Inductive collection :=
| TargetPixelFileCollection (ps : list Product)
| LightCurveCollection (ps : list Product).

Definition empty_warning : string := "Cannot download from an empty search result.".

Definition multiple_warning (n : nat) : string :=
  "Warning: " ++ str_of_Z (Z.of_nat n) ++ " files available to download. " ++
  "Only the first file has been downloaded.".

(** [SearchResult.download]: [None] in the result stands for Python's
    [None]. *)
Definition download (table : list row) : list string * result (option Product) :=
  if (length table =? 0)%nat then ([empty_warning], Ok None) else
  let w := if negb (length table =? 1)%nat then [multiple_warning (length table)] else [] in
  let '(w', res) := download_one (firstn 1 table) in
  ((w ++ w')%list, p <- res ;; Ok (Some p)).

(** The loop of [download_all]: one [_download_one] call per row, in
    order; the first exception ends it. *)
Fixpoint download_rows (rows : list row) : list string * result (list Product) :=
  match rows with
  | [] => ([], Ok [])
  | r :: rows' =>
      let '(w, res) := download_one [r] in
      match res with
      | Err e => (w, Err e)
      | Ok p =>
          let '(w', res') := download_rows rows' in
          ((w ++ w')%list, ps <- res' ;; Ok (p :: ps))
      end
  end.

(** [SearchResult.download_all] *)
Definition download_all (table : list row) : list string * result (option collection) :=
  if (length table =? 0)%nat then ([empty_warning], Ok None) else
  let '(w, res) := download_rows table in
  (w, products <- res ;;
      match products with
      | p :: _ =>
          if is_target_pixel_file p then Ok (Some (TargetPixelFileCollection products))
          else Ok (Some (LightCurveCollection products))
      | [] => Err IndexError
      end).

End Download.

End Download.

(** ** The [observation] column of [_search_products] *)

Module Labels.
Import Resolver.

(** [re.findall(r".*Q(\d+)", description)[0]].  [.] does not match a
    newline, so the first match lies in the first line that holds a "Q"
    followed by a digit, and the greedy [.*] makes it the last such "Q" of
    that line; the group is the run of digits after it.  [acc] is the group
    found so far in the current line; [None] stands for the [IndexError] of
    an empty [findall] result. *)
Fixpoint findall_q_go (s : string) (acc : option string) : option string :=
  match s with
  | EmptyString => acc
  | String c s' =>
      if Ascii.eqb c (ascii_of_nat 10) then
        match acc with
        | Some d => Some d
        | None => findall_q_go s' None
        end
      else if Ascii.eqb c "Q" then
        match fst (take_digits s') with
        | EmptyString => findall_q_go s' acc
        | d => findall_q_go s' (Some d)
        end
      else findall_q_go s' acc
  end.

Definition findall_q_first (s : string) : option string := findall_q_go s None.

(** [obs_prefix.get(obs_project, "")] *)
Definition obs_prefix (project : string) : string :=
  if String.eqb project "Kepler" then "Quarter"
  else if String.eqb project "K2" then "Campaign"
  else if String.eqb project "TESS" then "Sector"
  else "".

(** A cell of the [sequence_number] column: a number, or masked. *)
Inductive seq_cell :=
| SeqNo (n : Z)
| Masked.

(** The body of the loop that fills [result['observation'][idx]]:
    ["{} {} {}".format(obs_project, obs_prefix.get(obs_project, ""), obs_seqno)].
    A masked cell formats as "--"; for Kepler it is replaced by the quarter
    read from the description, or by "" when the regex finds none. *)
Definition observation_label (project : string) (seqno : seq_cell)
  (description : string) : string :=
  let obs_seqno :=
    match seqno with
    | SeqNo n => str_of_Z n
    | Masked =>
        if String.eqb project "Kepler" then
          match findall_q_first description with
          | Some d => d
          | None => ""
          end
        else "--"
    end in
  project ++ " " ++ obs_prefix project ++ " " ++ obs_seqno.

End Labels.

(** ** [SearchResult] construction and indexing *)

Module SearchResultM.
Import Filters.

Section SearchResultM.

Variable Row : Type.

(** A row of [SearchResult.table] with its [#] cell. *)
Definition numbered : Type := (option nat * Row)%type.

(** The loop of [_add_columns]: [table['#'][idx] = idx]. *)
Fixpoint number_from (n : nat) (t : list numbered) : list numbered :=
  match t with
  | [] => []
  | (_, r) :: t' => (Some n, r) :: number_from (S n) t'
  end.

(** [SearchResult.__init__]: [None] gives an empty [Table()]. *)
Definition search_result (table : option (list numbered)) : list numbered :=
  match table with
  | None => []
  | Some t => if (0 <? length t)%nat then number_from 0 t else t
  end.

(** The key of [SearchResult.__getitem__]: an integer or a slice
    [start:stop] (with step 1). *)
Inductive key :=
| KInt (k : Z)
| KSlice (start stop : option Z).

(** Python's bounds for [table[k]] with an integer [k]. *)
Definition py_index (len : nat) (k : Z) : option nat :=
  let k' := if (k <? 0)%Z then (k + Z.of_nat len)%Z else k in
  if (0 <=? k')%Z && (k' <? Z.of_nat len)%Z then Some (Z.to_nat k') else None.

(** A slice bound, clipped to [0, len] the way Python does. *)
Definition slice_bound (len : nat) (b : Z) : nat :=
  Z.to_nat (if (b <? 0)%Z then Z.max 0 (b + Z.of_nat len) else Z.min b (Z.of_nat len)).

(** [l[start:stop]] *)
Definition py_slice {A} (start stop : option Z) (l : list A) : list A :=
  let n := length l in
  let a := match start with None => 0%nat | Some b => slice_bound n b end in
  let b := match stop with None => n | Some b => slice_bound n b end in
  firstn (b - a) (skipn a l).

(** [SearchResult.__getitem__]: an integer selects a [Row], which is
    wrapped in a one-row [Table]; the result is a new [SearchResult]. *)
Definition getitem (t : list numbered) (k : key) : result (list numbered) :=
  match k with
  | KInt k =>
      let k := if (k =? -1)%Z then (Z.of_nat (length t) - 1)%Z else k in
      match py_index (length t) k with
      | Some i =>
          match nth_error t i with
          | Some r => Ok (search_result (Some [r]))
          | None => Err IndexError
          end
      | None => Err IndexError
      end
  | KSlice a b => Ok (search_result (Some (py_slice a b t)))
  end.

End SearchResultM.

End SearchResultM.

(** ** [_query_mast], [_search_products] and the public search functions *)

Module Search.
Import Resolver Filters.

(** The exceptions of the search layer. *)
Inductive search_error :=
| SearchError (msg : string)
| ResolverError (msg : string)
| HTTPError (msg : string)
| PyError (e : py_error)
| OtherError (msg : string).

Inductive outcome (A : Type) :=
| Done (a : A)
| Raise (e : search_error).
Arguments Done {A} a.
Arguments Raise {A} e.

Definition obind {A B} (m : outcome A) (k : A -> outcome B) : outcome B :=
  match m with
  | Done a => k a
  | Raise e => Raise e
  end.

Notation "'let?' x ':=' m 'in' k" := (obind m (fun x => k))
  (at level 200, x name, m at level 100, k at level 200).

(** An exception of the filters, raised through the search layer. *)
Definition lift {A} (r : result A) : outcome A :=
  match r with
  | Ok a => Done a
  | Err e => Raise (PyError e)
  end.

(** A string argument or a list of them ([mission], [author]). *)
Inductive str_arg :=
| AStr (s : string)
| AList (l : list string).

(** [np.atleast_1d(x).tolist()] *)
Definition atleast_1d_str (a : str_arg) : list string :=
  match a with
  | AStr s => [s]
  | AList l => l
  end.

(** An integer argument or a list of them ([quarter], [campaign], ...). *)
Inductive seq_arg :=
| SInt (z : Z)
| SList (l : list Z).

Definition atleast_1d_seq (a : seq_arg) : list Z :=
  match a with
  | SInt z => [z]
  | SList l => l
  end.

(** Python truthiness of an [int] or a [list]. *)
Definition truthy_seq (a : seq_arg) : bool :=
  match a with
  | SInt z => negb (z =? 0)%Z
  | SList l => negb (length l =? 0)%nat
  end.

(** [campaign or sector] *)
Definition py_or_seq (a b : option seq_arg) : option seq_arg :=
  match a with
  | Some v => if truthy_seq v then a else b
  | None => b
  end.

(** The [provenance_name] block of [_search_products]. *)
Definition normalize_provenance (p : option str_arg) : option (list string) :=
  match p with
  | None => None
  | Some (AStr s) =>
      if String.eqb s "any" || String.eqb s "all" then None else Some [s]
  | Some (AList l) => Some l
  end.

(** The values of the keyword arguments of [Observations.query_criteria]. *)
Inductive qval :=
| QStrs (l : list string)
| QSeq (v : seq_arg)
| QRange (lo hi : Z)
| QStr (s : string).

(** A Python [dict] of keyword arguments, in insertion order. *)
Definition criteria : Type := list (string * qval).

(** [d[k] = v] *)
Fixpoint dict_set (k : string) (v : qval) (d : criteria) : criteria :=
  match d with
  | [] => [(k, v)]
  | (k', v') :: d' => if String.eqb k k' then (k, v) :: d' else (k', v') :: dict_set k v d'
  end.

(** [d.get(k)] *)
Fixpoint dict_get (k : string) (d : criteria) : option qval :=
  match d with
  | [] => None
  | (k', v) :: d' => if String.eqb k k' then Some v else dict_get k d'
  end.

(** The [query_criteria] dict of [_query_mast]. *)
Definition query_criteria (project : list string) (provenance_name : option (list string))
  (t_exptime : option (Z * Z)) (sequence_number : option seq_arg)
  (extra_query_criteria : criteria) : criteria :=
  let qc := fold_left (fun d kv => dict_set (fst kv) (snd kv) d)
                      extra_query_criteria [("project", QStrs project)] in
  let qc := match provenance_name with
            | Some p => dict_set "provenance_name" (QStrs p) qc
            | None => qc
            end in
  let qc := match sequence_number with
            | Some s => dict_set "sequence_number" (QSeq s) qc
            | None => qc
            end in
  match t_exptime with
  | Some (lo, hi) => dict_set "t_exptime" (QRange lo hi) qc
  | None => qc
  end.

(** The columns of a MAST observation that this module reads or writes;
    the float [distance] is modelled by an integer, as for products. *)
Record observation := mkObs {
  obs_target_name : string;
  obs_sequence_number : Z;
  obs_distance : Z
}.

(** [obs['distance'] = 0.] *)
Definition zero_distance (o : observation) : observation :=
  mkObs (obs_target_name o) (obs_sequence_number o) 0.

(** [obs.sort('distance')], as a stable insertion sort. *)
Fixpoint insert_obs (x : observation) (l : list observation) : list observation :=
  match l with
  | [] => [x]
  | y :: l' => if (obs_distance x <=? obs_distance y)%Z then x :: l else y :: insert_obs x l'
  end.

Fixpoint sort_obs (l : list observation) : list observation :=
  match l with
  | [] => []
  | x :: l' => insert_obs x (sort_obs l')
  end.

(** A row of the table built for [search_tesscut]. *)
Record cutout := mkCutout {
  cut_description : string;
  cut_observation : string;
  cut_target_name : string;
  cut_targetid : string;
  cut_productFilename : string;
  cut_provenance_name : string;
  cut_author : string;
  cut_distance : Z;
  cut_sequence_number : Z;
  cut_project : string;
  cut_obs_collection : string
}.

(** The dict appended to [cutouts] for sector [s]. *)
Definition make_cutout (target_str : string) (s : Z) : cutout :=
  mkCutout ("TESS FFI Cutout (sector " ++ str_of_Z s ++ ")") ("TESS Sector " ++ str_of_Z s)
           target_str target_str "TESSCut" "MAST" "MAST" 0 s "TESS" "TESS".

(** [s in np.atleast_1d(sector) or sector is None] *)
Definition sector_ok (sector : option seq_arg) (s : Z) : bool :=
  match sector with
  | None => true
  | Some v => existsb (Z.eqb s) (atleast_1d_seq v)
  end.

(** The loop of the FFI branch of [_search_products]. *)
Definition ffi_cutouts (target_str : string) (sector : option seq_arg)
  (observations : list observation) : list cutout :=
  map (fun o => make_cutout target_str (obs_sequence_number o))
      (filter (fun o => contains "TESS FFI" (obs_target_name o) &&
                        sector_ok sector (obs_sequence_number o)) observations).

(** The order of [masked_result.sort(['distance', 'sequence_number'])]. *)
Definition cutout_le (a b : cutout) : bool :=
  (cut_distance a <? cut_distance b)%Z ||
  ((cut_distance a =? cut_distance b)%Z && (cut_sequence_number a <=? cut_sequence_number b)%Z).

Fixpoint insert_cutout (x : cutout) (l : list cutout) : list cutout :=
  match l with
  | [] => [x]
  | y :: l' => if cutout_le x y then x :: l else y :: insert_cutout x l'
  end.

Fixpoint sort_cutouts (l : list cutout) : list cutout :=
  match l with
  | [] => []
  | x :: l' => insert_cutout x (sort_cutouts l')
  end.

(** The table a [SearchResult] is built from: the filtered products, the
    FFI cutouts, or [None]. *)
Inductive search_table :=
| ProductTable (rows : list row)
| CutoutTable (rows : list cutout)
| NoTable.

Definition table_length (t : search_table) : nat :=
  match t with
  | ProductTable l => length l
  | CutoutTable l => length l
  | NoTable => 0
  end.

Definition dquote : string := String (ascii_of_nat 34) EmptyString.

Section Search.

(** A cone-search radius, and its astropy conversions. *)
Variable Radius : Type.
(** [.0001 * u.arcsec] *)
Variable default_radius : Radius.
(** [str(radius.to(u.deg))], after a float radius is multiplied by
    [u.arcsec]. *)
Variable radius_deg : Radius -> string.

(** [Observations.query_criteria(...)]: the observations MAST returns
    for a dict of keyword arguments, or the exception it raises. *)
Variable mast : criteria -> outcome (list observation).

(** [Observations.get_product_list(observations)], the right join on
    [obs_id], the sort on [distance] and [obs_id] and the added [author] and
    [observation] columns (the latter filled by [observation_label]). *)
Variable products_of : list observation -> list row.

(** The table read from [short_cadence_month_lookup.csv]. *)
Variable lookup_table : list lookup_row.

(** [_query_mast]: the list of the keyword dicts it sends to MAST, in order,
    and its result.  The target name and object name keywords are entered
    in the dict. *)
Definition query_mast_full (target_str : string) (radius : option Radius)
  (project : list string) (provenance_name : option (list string))
  (t_exptime : option (Z * Z)) (sequence_number : option seq_arg)
  (extra_query_criteria : criteria) : list criteria * outcome (list observation) :=
  let qc := query_criteria project provenance_name t_exptime sequence_number
                           extra_query_criteria in
  let cone (calls : list criteria) :=
    let r := match radius with None => default_radius | Some r => r end in
    let call := dict_set "objectname" (QStr target_str)
                  (dict_set "radius" (QStr (radius_deg r)) qc) in
    ((calls ++ [call])%list,
     match mast call with
     | Done obs => Done (sort_obs obs)
     | Raise (ResolverError m) => Raise (SearchError m)
     | Raise e => Raise e
     end) in
  match exact_target_name target_str, radius with
  | Some name, None =>
      if String.eqb name "" then cone [] else
      let call := dict_set "target_name" (QStr name) qc in
      match mast call with
      | Done obs =>
          if (0 <? length obs)%nat then ([call], Done (map zero_distance obs))
          else cone [call]
      | Raise e => ([call], Raise e)
      end
  | _, _ => cone []
  end.

(** [_search_products]; its warning for integer targets is
    [int_target_warning]. *)
Definition search_products (t : target) (radius : option Radius)
  (filetype cadence : string) (mission : str_arg) (provenance_name : option str_arg)
  (t_exptime : option (Z * Z)) (quarter month campaign sector : option seq_arg)
  (limit : option Z) (extra_query_criteria : criteria)
  : list criteria * outcome search_table :=
  let mission := atleast_1d_str mission in
  let provenance_name := normalize_provenance provenance_name in
  let extra_query_criteria :=
    if mem filetype ["Lightcurve"; "Target Pixel"]
    then [("dataproduct_type", QStrs ["cube"; "timeseries"])] else [] in
  let radius :=
    if String.eqb (lower filetype) "ffi" && is_none radius then Some default_radius
    else radius in
  let '(calls, res) :=
    query_mast_full (str_target t) radius mission provenance_name t_exptime
                    (py_or_seq campaign sector) extra_query_criteria in
  (calls,
   let? observations := res in
   if (length observations =? 0)%nat then
     Raise (SearchError ("No data found for target " ++ dquote ++ str_target t ++ dquote ++ "."))
   else if negb (String.eqb (lower filetype) "ffi") then
     let? masked_result :=
       lift (filter_products lookup_table (products_of observations)
               (option_map atleast_1d_seq campaign) (option_map atleast_1d_seq quarter)
               (option_map atleast_1d_seq month) (option_map atleast_1d_seq sector)
               cadence limit provenance_name filetype) in
     Done (ProductTable masked_result)
   else
     let cutouts := ffi_cutouts (str_target t) sector observations in
     if (0 <? length cutouts)%nat then Done (CutoutTable (sort_cutouts cutouts))
     else Done NoTable).

(** The [except SearchError] of the public search functions: the error is
    logged and an empty [SearchResult] returned. *)
Definition catch_search_error (r : list criteria * outcome search_table)
  : list criteria * outcome search_table :=
  let '(calls, res) := r in
  (calls, match res with
          | Raise (SearchError _) => Done NoTable
          | _ => res
          end).

Definition default_author : str_arg := AList ["Kepler"; "K2"; "SPOC"].
Definition default_exptime : option (Z * Z) := Some (0, 9999)%Z.

(** [search_lightcurve] *)
Definition search_lightcurve (t : target) (radius : option Radius) (cadence : string)
  (mission : str_arg) (author : option str_arg) (quarter month campaign sector : option seq_arg)
  (limit : option Z) : list criteria * outcome search_table :=
  catch_search_error
    (search_products t radius "Lightcurve" cadence mission author default_exptime
                     quarter month campaign sector limit []).

(** [search_targetpixelfile] *)
Definition search_targetpixelfile (t : target) (radius : option Radius) (cadence : string)
  (mission : str_arg) (author : option str_arg) (quarter month campaign sector : option seq_arg)
  (limit : option Z) : list criteria * outcome search_table :=
  catch_search_error
    (search_products t radius "Target Pixel" cadence mission author default_exptime
                     quarter month campaign sector limit []).

(** [search_tesscut] *)
Definition search_tesscut (t : target) (sector : option seq_arg)
  : list criteria * outcome search_table :=
  catch_search_error
    (search_products t None "ffi" "long" (AStr "TESS") (Some default_author)
                     default_exptime None None None sector None []).

End Search.

End Search.

(** ** [SearchResult._download_one] *)

Module DownloadOne.
Import Search.

Section DownloadOne.

Variables Row Product CutoutSize : Type.

(** The cells of [table[0]] the method reads. *)
Variables row_description row_target_name row_targetid : Row -> string.
Variable row_sequence_number : Row -> Z.

(** [self._fetch_tesscut_path(target, sector, download_dir, cutout_size)]:
    the local path, or the exception raised. *)
Variable fetch_tesscut_path : string -> Z -> option CutoutSize -> outcome string.

(** [str(exc)] *)
Variable str_exc : search_error -> string.

(** [Observations.download_products(table[:1], ...)['Local Path'][0]] *)
Variable download_products : Row -> outcome string.

(** [read(path, quality_bitmask=..., ...)]; the second argument is the
    [targetid] keyword, given for cutouts only. *)
Variable read : string -> option string -> outcome Product.

Definition tesscut_unavailable : string :=
  "The TESS FFI cutout service at MAST appears to be temporarily unavailable. " ++
  "It returned the following error: ".

Definition tesscut_edge : string :=
  "Unable to download FFI cutout. Desired target coordinates may be too near " ++
  "the edge of the FFI.Error: ".

Definition cutout_size_warning : string :=
  "`cutout_size` can only be specified for TESS Full Frame Image cutouts.".

(** The TESSCut branch, with its [try]/[except Exception]. *)
Definition tesscut_branch (r : Row) (cutout_size : option CutoutSize)
  : list string * outcome Product :=
  match fetch_tesscut_path (row_target_name r) (row_sequence_number r) cutout_size with
  | Done path => ([], read path (Some (row_targetid r)))
  | Raise exc =>
      let msg := str_exc exc in
      if contains "504" msg then ([], Raise (HTTPError (tesscut_unavailable ++ msg)))
      else ([], Raise (SearchError (tesscut_edge ++ msg)))
  end.

(** The MAST archive branch. *)
Definition archive_branch (r : Row) (cutout_size : option CutoutSize)
  : list string * outcome Product :=
  (match cutout_size with Some _ => [cutout_size_warning] | None => [] end,
   let? path := download_products r in read path None).

(** [_download_one]: the warnings it emits and its result. *)
Definition download_one (table : list Row) (cutout_size : option CutoutSize)
  : list string * outcome Product :=
  match table with
  | [] => ([], Raise (PyError Filters.IndexError))
  | r :: _ =>
      if contains "FFI Cutout" (row_description r) then tesscut_branch r cutout_size
      else archive_branch r cutout_size
  end.

End DownloadOne.

End DownloadOne.

(** * Properties *)

Module ResolverFacts.
Import Resolver.

Lemma drop_prefix_app : forall p s r,
  drop_prefix p s = Some r -> s = p ++ r.
Proof.
  induction p as [|a p IH]; intros s r H; simpl in H.
  - now inversion H.
  - destruct s as [|b s]; [discriminate|].
    destruct (Ascii.eqb a b) eqn:E; [|discriminate].
    apply Ascii.eqb_eq in E; subst b. simpl. f_equal. now apply IH.
Qed.

Lemma drop_prefix_app_self : forall p r, drop_prefix p (p ++ r) = Some r.
Proof.
  induction p as [|a p IH]; intro r; simpl; [reflexivity|].
  now rewrite Ascii.eqb_refl.
Qed.

Lemma take_digits_app : forall s d r,
  take_digits s = (d, r) -> s = d ++ r /\ all_digits d = true.
Proof.
  induction s as [|c s IH]; intros d r H; simpl in H.
  - inversion H; subst. split; reflexivity.
  - destruct (is_digit c) eqn:Hc.
    + destruct (take_digits s) as [d' r'] eqn:Ht. inversion H; subst.
      destruct (IH _ _ eq_refl) as [-> Hd]. simpl. rewrite Hc, Hd. split; reflexivity.
    + inversion H; subst. split; reflexivity.
Qed.

Lemma take_digits_stop : forall d r,
  all_digits d = true ->
  (match r with EmptyString => True | String c _ => is_digit c = false end) ->
  take_digits (d ++ r) = (d, r).
Proof.
  induction d as [|c d IH]; intros r Hd Hr; simpl in *.
  - destruct r as [|c r]; simpl; [reflexivity|]. now rewrite Hr.
  - apply andb_prop in Hd as [Hc Hd]. rewrite Hc, (IH r Hd Hr). reflexivity.
Qed.

Lemma match_digits_eol_spec : forall s d,
  match_digits_eol s = Some d <->
  exists nl, s = d ++ nl /\ d <> EmptyString /\ all_digits d = true /\
             (nl = EmptyString \/ nl = newline).
Proof.
  intros s d. unfold match_digits_eol. split.
  - destruct (take_digits s) as [d' r] eqn:Ht.
    apply take_digits_app in Ht as [-> Hd].
    destruct d' as [|c d'']; [discriminate|].
    destruct (String.eqb r EmptyString) eqn:E1;
      [|destruct (String.eqb r newline) eqn:E2]; simpl; intro H; try discriminate;
      inversion H; subst; exists r; repeat split; try easy.
    + left. now apply String.eqb_eq.
    + right. now apply String.eqb_eq.
  - intros (nl & -> & Hne & Hd & Hnl).
    rewrite take_digits_stop; [| exact Hd | destruct Hnl as [-> | ->]; reflexivity].
    destruct d as [|c d']; [congruence|].
    destruct Hnl as [-> | ->]; reflexivity.
Qed.

Lemma match_digits_eol_head : forall s d,
  match_digits_eol s = Some d ->
  exists c s', s = String c s' /\ is_digit c = true.
Proof.
  intros s d H. apply match_digits_eol_spec in H as (nl & -> & Hne & Hd & _).
  destruct d as [|c d']; [congruence|]. simpl in Hd.
  apply andb_prop in Hd as [Hc _]. now exists c, (d' ++ nl).
Qed.

Lemma match_after_prefix_spec : forall s d,
  match_after_prefix s = Some d <->
  exists sep rest, s = sep ++ rest /\ (sep = EmptyString \/ sep = " ") /\
                   match_digits_eol rest = Some d.
Proof.
  intros s d. split.
  - unfold match_after_prefix. destruct s as [|c s'].
    + intro H. exists EmptyString, EmptyString. auto.
    + destruct (Ascii.eqb c " ") eqn:Ec.
      * apply Ascii.eqb_eq in Ec; subst c.
        destruct (match_digits_eol s') eqn:H1.
        -- intro H; inversion H; subst. exists " ", s'. auto.
        -- intro H. exists EmptyString, (String " " s'). auto.
      * intro H. exists EmptyString, (String c s'). auto.
  - intros (sep & rest & -> & [-> | ->] & H).
    + destruct (match_digits_eol_head _ _ H) as (c & s' & -> & Hc).
      simpl. destruct (Ascii.eqb c " ") eqn:Ec.
      * apply Ascii.eqb_eq in Ec; subst c. discriminate.
      * exact H.
    + simpl. rewrite H. reflexivity.
Qed.

Lemma match_alts_some : forall alts t d,
  match_alts alts t = Some d ->
  exists a s, In a alts /\ t = a ++ s /\ match_after_prefix s = Some d.
Proof.
  induction alts as [|a alts IH]; intros t d H; simpl in H; [discriminate|].
  destruct (drop_prefix a t) as [s|] eqn:Hd.
  - destruct (match_after_prefix s) as [d'|] eqn:Hm.
    + inversion H; subst. exists a, s. split; [now left|].
      split; [now apply drop_prefix_app|assumption].
    + destruct (IH t d H) as (a' & s' & Hin & Ht & Hm').
      exists a', s'. split; [now right|]. auto.
  - destruct (IH t d H) as (a' & s' & Hin & Ht & Hm').
    exists a', s'. split; [now right|]. auto.
Qed.

Lemma lower_char_digit : forall c, is_digit c = true -> lower_char c = c.
Proof.
  intros c H. unfold is_digit in H. unfold lower_char.
  apply andb_prop in H as [H1 H2].
  apply Nat.leb_le in H1, H2.
  destruct ((65 <=? nat_of_ascii c)%nat) eqn:E; [|reflexivity].
  apply Nat.leb_le in E. lia.
Qed.

(** The string [str(n)] of an integer starts with a digit or a minus
    sign. *)
Lemma str_of_Z_head : forall z,
  str_of_Z z = EmptyString \/
  exists c s, str_of_Z z = String c s /\ (c = "-"%char \/ is_digit c = true).
Proof.
  intro z.
  assert (Hu : forall u, NilEmpty.string_of_uint u = EmptyString \/
     exists c s, NilEmpty.string_of_uint u = String c s /\ is_digit c = true).
  { intro u; destruct u; simpl; [now left| right; eexists; eexists; split;
      [reflexivity| reflexivity] ..]. }
  destruct z as [|p|p].
  - right. exists "0"%char, EmptyString. split; [reflexivity|now right].
  - change (str_of_Z (Zpos p)) with (NilEmpty.string_of_uint (Pos.to_uint p)).
    destruct (Hu (Pos.to_uint p)) as [H|(c & s & H & Hc)];
      [left; exact H|right; exists c, s; auto].
  - right. do 2 eexists. split; [reflexivity|]. now left.
Qed.

Lemma match_alts_head : forall alts c s,
  Forall (fun a => exists a' r, a = String a' r /\ is_digit a' = false) alts ->
  is_digit c = true ->
  match_alts alts (String c s) = None.
Proof.
  induction alts as [|a alts IH]; intros c s Hall Hc; [reflexivity|].
  inversion Hall as [|? ? (a' & r & -> & Ha) Hrest]; subst.
  assert (Hne : a' <> c) by (intros ->; congruence).
  simpl. destruct (Ascii.eqb a' c) eqn:E.
  - apply Ascii.eqb_eq in E. contradiction.
  - now apply IH.
Qed.

Lemma exact_target_name_int : forall z, exact_target_name (str_of_Z z) = None.
Proof.
  intro z. unfold exact_target_name, kplr_match, ktwo_match, tess_match.
  destruct (str_of_Z_head z) as [-> | (c & s & -> & [-> | Hc])];
    [reflexivity | reflexivity |].
  simpl lower. rewrite (lower_char_digit c Hc).
  rewrite !match_alts_head; try exact Hc; try reflexivity;
    repeat constructor; eexists; eexists; split; reflexivity.
Qed.

End ResolverFacts.

Module ResolverClaims.
Import Resolver ResolverFacts.

Lemma exact_target_name_complete : forall s e,
  exact_target_name s = Some e ->
  exists pre sep digits nl,
    lower s = pre ++ sep ++ digits ++ nl /\
    (sep = EmptyString \/ sep = " ") /\
    digits <> EmptyString /\ all_digits digits = true /\
    (nl = EmptyString \/ nl = newline) /\
    ( ((pre = "kplr" \/ pre = "kic") /\ e = "kplr" ++ zfill 9 digits)
   \/ ((pre = "ktwo" \/ pre = "epic") /\ e = "ktwo" ++ zfill 9 digits)
   \/ ((pre = "tess" \/ pre = "tic") /\ e = zfill 9 digits)).
Proof.
  intros s e. unfold exact_target_name.
  set (t := lower s).
  assert (Hdec : forall alts d, match_alts alts t = Some d ->
     exists pre sep nl, In pre alts /\ t = pre ++ sep ++ d ++ nl /\
       (sep = EmptyString \/ sep = " ") /\ d <> EmptyString /\
       all_digits d = true /\ (nl = EmptyString \/ nl = newline)).
  { intros alts d H. apply match_alts_some in H as (a & r & Hin & Ht & Hm).
    apply match_after_prefix_spec in Hm as (sep & rest & -> & Hsep & Hd).
    apply match_digits_eol_spec in Hd as (nl & -> & Hne & Hdig & Hnl).
    exists a, sep, nl. repeat split; auto. }
  destruct (tess_match t) as [d|] eqn:H3.
  - intro H; inversion H; subst e.
    destruct (Hdec _ _ H3) as (pre & sep & nl & Hin & Ht & ?&?&?&?).
    exists pre, sep, d, nl. repeat split; auto. right; right.
    split; [|reflexivity]. simpl in Hin. intuition.
  - destruct (ktwo_match t) as [d|] eqn:H2.
    + intro H; inversion H; subst e.
      destruct (Hdec _ _ H2) as (pre & sep & nl & Hin & Ht & ?&?&?&?).
      exists pre, sep, d, nl. repeat split; auto. right; left.
      split; [|reflexivity]. simpl in Hin. intuition.
    + destruct (kplr_match t) as [d|] eqn:H1; [|discriminate].
      intro H; inversion H; subst e.
      destruct (Hdec _ _ H1) as (pre & sep & nl & Hin & Ht & ?&?&?&?).
      exists pre, sep, d, nl. repeat split; auto. left.
      split; [|reflexivity]. simpl in Hin. intuition.
Qed.

Lemma exact_target_name_sound : forall s pre sep digits nl,
    lower s = pre ++ sep ++ digits ++ nl ->
    (sep = EmptyString \/ sep = " ") ->
    digits <> EmptyString -> all_digits digits = true ->
    (nl = EmptyString \/ nl = newline) ->
    ((pre = "kplr" \/ pre = "kic") ->
       exact_target_name s = Some ("kplr" ++ zfill 9 digits)) /\
    ((pre = "ktwo" \/ pre = "epic") ->
       exact_target_name s = Some ("ktwo" ++ zfill 9 digits)) /\
    ((pre = "tess" \/ pre = "tic") ->
       exact_target_name s = Some (zfill 9 digits)).
Proof.
  intros s pre sep digits nl Hs Hsep Hne Hd Hnl.
  assert (Hm : match_after_prefix (sep ++ digits ++ nl) = Some digits).
  { apply match_after_prefix_spec. exists sep, (digits ++ nl).
    repeat split; auto. apply match_digits_eol_spec. now exists nl. }
  unfold exact_target_name, kplr_match, ktwo_match, tess_match.
  rewrite Hs. revert Hm. generalize (sep ++ digits ++ nl). intros x Hm.
  repeat split; intros [-> | ->]; cbn -[match_after_prefix zfill]; rewrite Hm;
    reflexivity.
Qed.

End ResolverClaims.

Module FilterFacts.
Import Filters.

(** *** Element-wise masks *)

Lemma zip_with_map : forall (f : bool -> bool -> bool) (g h : row -> bool) l,
  zip_with f (map g l) (map h l) = map (fun x => f (g x) (h x)) l.
Proof. intros f g h l; induction l; simpl; congruence. Qed.

Lemma repeat_length_map : forall (b : bool) (l : list row),
  repeat b (length l) = map (fun _ => b) l.
Proof. intros b l; induction l; simpl; congruence. Qed.

Lemma combine_map : forall {A B C} (f : A -> B) (g : A -> C) l,
  combine (map f l) (map g l) = map (fun x => (f x, g x)) l.
Proof. intros A B C f g l; induction l; simpl; congruence. Qed.

Lemma combine_self_map : forall {A B} (f : A -> B) l,
  combine l (map f l) = map (fun x => (x, f x)) l.
Proof. intros A B f l; induction l; simpl; congruence. Qed.

Lemma map_result_map : forall {A B C} (f : B -> result C) (g : A -> B) l,
  map_result f (map g l) = map_result (fun x => f (g x)) l.
Proof. intros A B C f g l; induction l as [|a l IH]; simpl; [reflexivity|]. now rewrite IH. Qed.

Lemma map_result_ok_map : forall {A B} (f : A -> result B) (g : A -> B) l,
  (forall x, In x l -> f x = Ok (g x)) -> map_result f l = Ok (map g l).
Proof.
  intros A B f g l; induction l as [|x l IH]; intro H; simpl; [reflexivity|].
  rewrite (H x (or_introl eq_refl)). simpl.
  rewrite IH by (intros y Hy; apply H; now right). reflexivity.
Qed.

Lemma map_result_nth : forall {A B} (f : A -> result B) l m,
  map_result f l = Ok m ->
  forall i x, nth_error l i = Some x ->
  exists y, f x = Ok y /\ nth_error m i = Some y.
Proof.
  intros A B f l; induction l as [|a l IH]; intros m H i x Hx.
  - destruct i; discriminate.
  - simpl in H. destruct (f a) as [y|e] eqn:Hf; simpl in H; [|discriminate].
    destruct (map_result f l) as [ys|e] eqn:Hl; simpl in H; [|discriminate].
    inversion H; subst m. destruct i as [|i]; simpl in Hx.
    + inversion Hx; subst. exists y. auto.
    + exact (IH ys eq_refl i x Hx).
Qed.

Lemma map_result_err : forall {A B} (f : A -> result B) l e,
  map_result f l = Err e -> exists x, In x l /\ f x = Err e.
Proof.
  intros A B f l; induction l as [|a l IH]; intros e H; simpl in H; [discriminate|].
  destruct (f a) as [y|e'] eqn:Hf; simpl in H.
  - destruct (map_result f l) as [ys|e'] eqn:Hl; simpl in H; [discriminate|].
    inversion H; subst. destruct (IH e eq_refl) as (x & Hin & Hx).
    exists x. split; [now right|assumption].
  - inversion H; subst. exists a. split; [now left|assumption].
Qed.

Lemma map_result_total : forall {A B} (f : A -> result B) l,
  (forall x, In x l -> exists y, f x = Ok y) -> exists m, map_result f l = Ok m.
Proof.
  intros A B f l; induction l as [|a l IH]; intro H; simpl; [now exists []|].
  destruct (H a (or_introl eq_refl)) as [y Hy]. rewrite Hy. simpl.
  destruct IH as [ys Hys]; [intros x Hx; apply H; now right|].
  rewrite Hys. now exists (y :: ys).
Qed.

Lemma nth_zip_with : forall f m1 m2 i a b,
  nth_error m1 i = Some a -> nth_error m2 i = Some b ->
  nth_error (zip_with f m1 m2) i = Some (f a b).
Proof.
  intros f m1; induction m1 as [|x m1 IH]; intros m2 i a b H1 H2.
  - destruct i; discriminate.
  - destruct m2 as [|y m2]; [destruct i; discriminate|].
    destruct i as [|i]; simpl in *; [congruence|]. now apply IH.
Qed.

Lemma mask_empty_map : forall (p : row -> bool) l,
  mask_empty (map p l) = true -> forall x, In x l -> p x = false.
Proof.
  intros p l H x Hx. unfold mask_empty in H. apply negb_true_iff in H.
  destruct (p x) eqn:E; [|reflexivity].
  assert (existsb (fun b => b) (map p l) = true) by
    (apply existsb_exists; exists true; split; [apply in_map_iff; now exists x|reflexivity]).
  congruence.
Qed.

Lemma quarter_fold : forall qs l (a : row -> bool),
  fold_left (fun qm q => mask_or qm (map (quarter_match q) l)) qs (map a l) =
  map (fun r => a r || existsb (fun q => quarter_match q r) qs) l.
Proof.
  induction qs as [|q qs IH]; intros l a; simpl.
  - apply map_ext. intro; now rewrite orb_false_r.
  - unfold mask_or. rewrite zip_with_map, IH.
    apply map_ext. intro r. now rewrite orb_assoc.
Qed.

(** *** The three family masks, row by row *)

Lemma kepler_row_other : forall table quarter month cadence filetype r,
  is_prov "kepler" r = false ->
  kepler_row table quarter month cadence filetype r = Ok false.
Proof.
  intros table quarter month cadence filetype r H. unfold kepler_row.
  rewrite H. simpl. destruct month; reflexivity.
Qed.

Lemma mask_kepler_rowwise : forall table products quarter month cadence filetype,
  mask_kepler_products table products quarter month cadence filetype =
  map_result (kepler_row table quarter month cadence filetype) products.
Proof.
  intros table products quarter month cadence filetype.
  unfold mask_kepler_products.
  destruct (mask_empty (map (is_prov "kepler") products)) eqn:E.
  - symmetry. apply map_result_ok_map. intros x Hx.
    rewrite (mask_empty_map _ _ E x Hx). apply kepler_row_other.
    exact (mask_empty_map _ _ E x Hx).
  - unfold mask_and. rewrite zip_with_map.
    set (b := fun r => is_prov "kepler" r &&
           contains (cadence_string cadence filetype) (description r) &&
           match quarter with
           | None => true
           | Some qs => existsb (fun q => quarter_match q r) qs
           end).
    assert (Hq : match quarter with
                 | Some qs => zip_with andb
                     (map (fun x => is_prov "kepler" x &&
                        contains (cadence_string cadence filetype) (description x)) products)
                     (fold_left (fun qm q => mask_or qm (map (quarter_match q) products))
                        qs (repeat false (length products)))
                 | None => map (fun x => is_prov "kepler" x &&
                        contains (cadence_string cadence filetype) (description x)) products
                 end = map b products).
    { subst b. destruct quarter as [qs|].
      - rewrite repeat_length_map, quarter_fold, zip_with_map. reflexivity.
      - apply map_ext. intro; now rewrite andb_true_r. }
    simpl. rewrite Hq.
    destruct month as [months|].
    + rewrite zip_with_map, combine_self_map, combine_map, map_result_map.
      reflexivity.
    + symmetry. apply map_result_ok_map. reflexivity.
Qed.

Lemma mask_k2_rowwise : forall products campaign cadence filetype,
  mask_k2_products products campaign cadence filetype =
  map (k2_row cadence filetype) products.
Proof.
  intros products campaign cadence filetype. unfold mask_k2_products.
  destruct (mask_empty (map (is_prov "k2") products)) eqn:E.
  - apply map_ext_in. intros x Hx. unfold k2_row.
    now rewrite (mask_empty_map _ _ E x Hx).
  - unfold mask_and. now rewrite zip_with_map.
Qed.

Lemma mask_spoc_nth : forall products sector filetype m,
  mask_spoc_products products sector filetype = Ok m ->
  forall i r, nth_error products i = Some r ->
  exists b, spoc_row filetype r = Ok b /\ nth_error m i = Some b.
Proof.
  intros products sector filetype m H i r Hr. unfold mask_spoc_products in H.
  destruct (mask_empty (map (is_prov "spoc") products)) eqn:E.
  - inversion H; subst m. exists false.
    assert (Hf : is_prov "spoc" r = false)
      by exact (mask_empty_map _ _ E r (nth_error_In _ _ Hr)).
    unfold spoc_row. rewrite Hf. split; [reflexivity|].
    now rewrite (map_nth_error _ _ _ Hr), Hf.
  - destruct (spoc_description_string filetype) as [ds|e] eqn:Hds;
      simpl in H; [|discriminate].
    inversion H; subst m. unfold mask_and. rewrite zip_with_map.
    exists (is_prov "spoc" r && contains ds (description r)).
    split; [|exact (map_nth_error _ _ _ Hr)].
    unfold spoc_row. destruct (is_prov "spoc" r); [|reflexivity].
    rewrite Hds. reflexivity.
Qed.

Lemma is_prov_excl : forall r p q,
  is_prov p r = true -> p <> q -> is_prov q r = false.
Proof.
  unfold is_prov. intros r p q H Hne. apply String.eqb_eq in H. rewrite H.
  now apply String.eqb_neq.
Qed.

Lemma prov_cases : forall r,
  (is_prov "kepler" r = true /\ is_prov "k2" r = false /\ is_prov "spoc" r = false) \/
  (is_prov "kepler" r = false /\ is_prov "k2" r = true /\ is_prov "spoc" r = false) \/
  (is_prov "kepler" r = false /\ is_prov "k2" r = false /\ is_prov "spoc" r = true) \/
  (is_prov "kepler" r = false /\ is_prov "k2" r = false /\ is_prov "spoc" r = false).
Proof.
  intro r.
  destruct (is_prov "kepler" r) eqn:A.
  - left. split; [reflexivity|].
    split; apply (is_prov_excl r "kepler"); easy.
  - destruct (is_prov "k2" r) eqn:B.
    + right; left. split; [reflexivity|]. split; [reflexivity|].
      apply (is_prov_excl r "k2"); easy.
    + right; right. destruct (is_prov "spoc" r); [left|right]; auto.
Qed.

Ltac nth_solve Hr Hlt :=
  repeat first
    [ eapply nth_zip_with
    | exact (map_nth_error _ _ _ Hr)
    | apply nth_error_repeat; exact Hlt
    | eassumption ].

(** The family stage of [_filter_products], row by row. *)
Lemma family_mask_nth : forall table products campaign quarter month sector
    cadence provenance_name filetype m,
  family_mask table products campaign quarter month sector cadence
              provenance_name filetype = Ok m ->
  forall i r, nth_error products i = Some r ->
  nth_error m i = Some
    (if is_prov "kepler" r then
       mem "kepler" (provenance_lower provenance_name) && is_none campaign &&
       is_none sector && ok_true (kepler_row table quarter month cadence filetype r)
     else if is_prov "k2" r then
       mem "k2" (provenance_lower provenance_name) && is_none quarter &&
       is_none sector && k2_row cadence filetype r
     else if is_prov "spoc" r then
       mem "spoc" (provenance_lower provenance_name) && is_none quarter &&
       is_none campaign && ok_true (spoc_row filetype r)
     else true).
Proof.
  intros table products campaign quarter month sector cadence provenance_name
    filetype m H i r Hr.
  assert (Hlt : (i < length products)%nat)
    by (apply nth_error_Some; congruence).
  unfold family_mask in H.
  destruct products as [|r0 rest] eqn:Hp; [discriminate|].
  rewrite <- Hp in H, Hr, Hlt. cbv beta zeta in H.
  set (prov := provenance_lower provenance_name) in *.
  assert (HK : forall km,
    mask_kepler_products table products quarter month cadence filetype = Ok km ->
    exists kb, kepler_row table quarter month cadence filetype r = Ok kb /\
               nth_error km i = Some kb).
  { intros km Hkm. rewrite mask_kepler_rowwise in Hkm.
    destruct (map_result_nth _ _ _ Hkm i r Hr) as (y & Hy & Hn). eauto. }
  assert (HS : forall sm, mask_spoc_products products sector filetype = Ok sm ->
    exists sb, spoc_row filetype r = Ok sb /\ nth_error sm i = Some sb)
    by (intros sm Hsm; exact (mask_spoc_nth _ _ _ _ Hsm i r Hr)).
  assert (Hk2 : nth_error (mask_k2_products products campaign cadence filetype) i =
                Some (k2_row cadence filetype r))
    by (rewrite mask_k2_rowwise; exact (map_nth_error _ _ _ Hr)).
  assert (HKo : is_prov "kepler" r = false ->
                ok_true (kepler_row table quarter month cadence filetype r) = false)
    by (intro; now rewrite kepler_row_other).
  assert (HSo : is_prov "spoc" r = false -> ok_true (spoc_row filetype r) = false)
    by (intro E; unfold spoc_row; now rewrite E).
  assert (HK2o : is_prov "k2" r = false -> k2_row cadence filetype r = false)
    by (intro E; unfold k2_row; now rewrite E).
  destruct (mem "kepler" prov && is_none campaign && is_none sector) eqn:EK;
  [ destruct (mask_kepler_products table products quarter month cadence filetype)
      as [km|e] eqn:Hkm; simpl in H; [|discriminate];
    destruct (HK km eq_refl) as (kb & Hkb & Hkn);
    replace kb with (ok_true (kepler_row table quarter month cadence filetype r))
      in Hkn by (now rewrite Hkb)
  | simpl in H ];
  (destruct (mem "spoc" prov && is_none quarter && is_none campaign) eqn:ES;
   [ destruct (mask_spoc_products products sector filetype) as [sm|e] eqn:Hsm;
       simpl in H; [|discriminate];
     destruct (HS sm eq_refl) as (sb & Hsb & Hsn);
     replace sb with (ok_true (spoc_row filetype r)) in Hsn by (now rewrite Hsb)
   | simpl in H ]);
  inversion H; subst m;
  destruct (mem "k2" prov && is_none quarter && is_none sector) eqn:E2;
  (eapply eq_trans; [nth_solve Hr Hlt|]);
  (destruct (prov_cases r) as [(A & B & C)|[(A & B & C)|[(A & B & C)|(A & B & C)]]];
   rewrite ?A, ?B, ?C; try rewrite (HKo A); try rewrite (HK2o B);
   try rewrite (HSo C); f_equal; btauto).
Qed.

(** *** Selection, sorting and the limit *)

Lemma select_In : forall mask products x,
  In x (select mask products) <->
  exists i, nth_error products i = Some x /\ nth_error mask i = Some true.
Proof.
  induction mask as [|b mask IH]; intros products x.
  - simpl. split; [easy|]. intros (i & _ & Hi). destruct i; discriminate.
  - destruct products as [|r products].
    + simpl. split; [easy|]. intros (i & Hi & _). destruct i; discriminate.
    + simpl. split.
      * intro H. destruct b.
        -- destruct H as [<- | H].
           ++ now exists 0%nat.
           ++ apply IH in H as (i & H1 & H2). now exists (S i).
        -- apply IH in H as (i & H1 & H2). now exists (S i).
      * intros ([|i] & H1 & H2); simpl in H1, H2.
        -- inversion H1; inversion H2; subst. now left.
        -- assert (Hin : In x (select mask products)) by (apply IH; eauto).
           destruct b; [now right|exact Hin].
Qed.

Lemma string_compare_lt_trans : forall a b c,
  String.compare a b = Lt -> String.compare b c = Lt -> String.compare a c = Lt.
Proof.
  induction a as [|x a IH]; intros [|y b] [|z c] H1 H2; simpl in *;
    try discriminate; try reflexivity.
  unfold Ascii.compare in *.
  destruct (N.compare (N_of_ascii x) (N_of_ascii y)) eqn:Exy; try discriminate;
  destruct (N.compare (N_of_ascii y) (N_of_ascii z)) eqn:Eyz; try discriminate.
  - apply N.compare_eq_iff in Exy, Eyz. rewrite Exy, Eyz, N.compare_refl. eauto.
  - apply N.compare_eq_iff in Exy. rewrite Exy, Eyz. reflexivity.
  - apply N.compare_eq_iff in Eyz. rewrite <- Eyz, Exy. reflexivity.
  - apply N.compare_lt_iff in Exy, Eyz.
    assert (Exz : N.compare (N_of_ascii x) (N_of_ascii z) = Lt)
      by (apply N.compare_lt_iff; eapply N.lt_trans; eassumption).
    now rewrite Exz.
Qed.

Lemma string_leb_trans : forall a b c,
  String.leb a b = true -> String.leb b c = true -> String.leb a c = true.
Proof.
  unfold String.leb. intros a b c H1 H2.
  destruct (String.compare a b) eqn:E1; try discriminate;
  destruct (String.compare b c) eqn:E2; try discriminate.
  - apply String.compare_eq_iff in E1. subst a. now rewrite E2.
  - apply String.compare_eq_iff in E1. subst a. now rewrite E2.
  - apply String.compare_eq_iff in E2. subst c. now rewrite E1.
  - now rewrite (string_compare_lt_trans _ _ _ E1 E2).
Qed.

Lemma row_le_total : forall a b, row_le a b = true \/ row_le b a = true.
Proof.
  intros a b. unfold row_le.
  destruct (Z.lt_trichotomy (distance a) (distance b)) as [H|[H|H]].
  - left. apply orb_true_iff. left. now apply Z.ltb_lt.
  - rewrite H, Z.ltb_irrefl, Z.eqb_refl. simpl.
    apply String.leb_total.
  - right. apply orb_true_iff. left. now apply Z.ltb_lt.
Qed.

Lemma row_le_trans : forall a b c,
  row_le a b = true -> row_le b c = true -> row_le a c = true.
Proof.
  unfold row_le. intros a b c H1 H2.
  apply orb_true_iff in H1, H2. apply orb_true_iff.
  destruct H1 as [H1|H1], H2 as [H2|H2].
  - left. apply Z.ltb_lt in H1, H2. apply Z.ltb_lt. lia.
  - left. apply Z.ltb_lt in H1. apply andb_prop in H2 as [H2 _].
    apply Z.eqb_eq in H2. apply Z.ltb_lt. lia.
  - left. apply Z.ltb_lt in H2. apply andb_prop in H1 as [H1 _].
    apply Z.eqb_eq in H1. apply Z.ltb_lt. lia.
  - right. apply andb_prop in H1 as [E1 L1], H2 as [E2 L2].
    apply Z.eqb_eq in E1, E2. apply andb_true_iff. split.
    + apply Z.eqb_eq. lia.
    + eapply string_leb_trans; eassumption.
Qed.

Lemma insert_row_perm : forall x l, Permutation (x :: l) (insert_row x l).
Proof.
  intros x l; induction l as [|y l IH]; simpl; [reflexivity|].
  destruct (row_le x y); [reflexivity|].
  eapply perm_trans; [apply perm_swap|]. now apply perm_skip.
Qed.

Lemma sort_rows_perm : forall l, Permutation l (sort_rows l).
Proof.
  induction l as [|x l IH]; simpl; [reflexivity|].
  eapply perm_trans; [apply perm_skip, IH|]. apply insert_row_perm.
Qed.

Lemma insert_row_sorted : forall x l,
  Sorted row_order l -> Sorted row_order (insert_row x l).
Proof.
  intros x l; induction l as [|y l IH]; intro H; simpl.
  - repeat constructor.
  - destruct (row_le x y) eqn:E.
    + constructor; [exact H|]. now constructor.
    + apply Sorted_inv in H as [Hl Hy].
      constructor; [now apply IH|].
      assert (Hyx : row_le y x = true)
        by (destruct (row_le_total x y); congruence).
      destruct l as [|z l]; simpl; [now constructor|].
      destruct (row_le x z); constructor; [exact Hyx|].
      now apply HdRel_inv in Hy.
Qed.

Lemma sort_rows_sorted : forall l, StronglySorted row_order (sort_rows l).
Proof.
  intro l. apply Sorted_StronglySorted.
  - intros a b c. apply row_le_trans.
  - induction l as [|x l IH]; simpl; [constructor|]. now apply insert_row_sorted.
Qed.

Lemma firstn_In_sub : forall {A} n (l : list A) x, In x (firstn n l) -> In x l.
Proof.
  intros A n l x H. rewrite <- (firstn_skipn n l). apply in_or_app. now left.
Qed.

Lemma firstn_strongly_sorted : forall {A} (R : A -> A -> Prop) n l,
  StronglySorted R l -> StronglySorted R (firstn n l).
Proof.
  intros A R n; induction n as [|n IH]; intros l H; simpl; [constructor|].
  destruct l as [|x l]; [constructor|].
  apply StronglySorted_inv in H as [Hl Hx]. constructor; [now apply IH|].
  rewrite Forall_forall in *. intros y Hy. apply Hx. eapply firstn_In_sub; eassumption.
Qed.

Lemma apply_limit_sorted : forall limit l,
  StronglySorted row_order l -> StronglySorted row_order (apply_limit limit l).
Proof.
  intros [n|] l H; simpl; [|exact H].
  unfold py_slice_to. destruct (0 <=? n)%Z; now apply firstn_strongly_sorted.
Qed.

Lemma apply_limit_In : forall limit l x, In x (apply_limit limit l) -> In x l.
Proof.
  intros [n|] l x H; simpl in H; [|exact H].
  unfold py_slice_to in H. destruct (0 <=? n)%Z; eapply firstn_In_sub; eassumption.
Qed.

Lemma filter_products_ok : forall table products campaign quarter month sector
    cadence limit provenance_name filetype out,
  filter_products table products campaign quarter month sector cadence limit
                  provenance_name filetype = Ok out ->
  exists m, family_mask table products campaign quarter month sector cadence
                        provenance_name filetype = Ok m /\
    out = apply_limit limit (sort_rows
      (select (mask_and m (map (fun r => fits_filename (productFilename r)) products))
              products)).
Proof.
  intros table products campaign quarter month sector cadence limit
    provenance_name filetype out H.
  unfold filter_products in H.
  destruct (family_mask table products campaign quarter month sector cadence
                        provenance_name filetype) as [m|e]; simpl in H; [|discriminate].
  inversion H. eauto.
Qed.

(** A row kept by [_filter_products] passed the family stage and the
    filename test. *)
Lemma filter_products_In : forall table products campaign quarter month sector
    cadence limit provenance_name filetype out x,
  filter_products table products campaign quarter month sector cadence limit
                  provenance_name filetype = Ok out ->
  In x out ->
  exists m i, family_mask table products campaign quarter month sector cadence
                          provenance_name filetype = Ok m /\
    nth_error products i = Some x /\ nth_error m i = Some true /\
    fits_filename (productFilename x) = true.
Proof.
  intros table products campaign quarter month sector cadence limit
    provenance_name filetype out x H Hx.
  destruct (filter_products_ok _ _ _ _ _ _ _ _ _ _ _ H) as (m & Hm & ->).
  apply apply_limit_In in Hx.
  apply (Permutation_in _ (Permutation_sym (sort_rows_perm _))) in Hx.
  apply select_In in Hx as (i & Hi & Hb).
  destruct (nth_error m i) as [b|] eqn:Hmi.
  - exists m, i. split; [exact Hm|]. split; [exact Hi|].
    unfold mask_and in Hb.
    rewrite (nth_zip_with andb _ _ i b _ Hmi (map_nth_error _ _ _ Hi)) in Hb.
    inversion Hb as [Hb']. apply andb_prop in Hb' as [-> ->]. auto.
  - rewrite (family_mask_nth _ _ _ _ _ _ _ _ _ _ Hm i x Hi) in Hmi. discriminate.
Qed.

Lemma ok_true_iff : forall x, ok_true x = true <-> x = Ok true.
Proof. intros [[|]|e]; simpl; split; congruence. Qed.

Lemma is_none_iff : forall {A} (o : option A), is_none o = true <-> o = None.
Proof. intros A [a|]; simpl; split; congruence. Qed.

Lemma some_true_iff : forall b : bool, Some b = Some true <-> b = true.
Proof. intros b; split; [congruence|now intros ->]. Qed.

Lemma permitted_dates_miss : forall table months q,
  (forall mo, In mo months ->
     find (fun e => (Month e =? mo)%Z && (Quarter e =? q)%Z) table = None) ->
  permitted_dates table months q = [].
Proof.
  intros table months q; induction months as [|mo months IH]; intro H; [reflexivity|].
  unfold permitted_dates in *. simpl. rewrite (H mo (or_introl eq_refl)). simpl.
  apply IH. intros mo' Hin. apply H. now right.
Qed.

Lemma kepler_row_month : forall table quarter months cadence filetype r,
  kepler_row table quarter (Some months) cadence filetype r =
  month_bit table months
    (r, month_candidate quarter cadence filetype r,
     is_prov "kepler" r &&
     contains (cadence_string cadence filetype) (description r) &&
     match quarter with
     | None => true
     | Some qs => existsb (fun q => quarter_match q r) qs
     end).
Proof. reflexivity. Qed.

End FilterFacts.

(** * The claims *)

Module Claims.
Import Resolver ResolverFacts ResolverClaims Filters FilterFacts.

(** ** C1 *)

(** C1 (corrected).  A bare integer target never yields an exact
    [target_name]: [_query_mast] always runs the cone search for it.  The
    ambiguity warning is logged for integers in [1, 13161030) (Kepler or
    TESS) and in [200000000, 251813739) (K2 or TESS); no warning is logged
    for integers from 251813739 on. *)
Theorem int_target_cone_search : forall exact_rows z radius filetype,
  exact_target_name (str_target (TInt z)) = None /\
  snd (search_products_query exact_rows (TInt z) radius filetype) = ByConeSearch /\
  (((0 < z < 13161030)%Z \/ (200000000 <= z < 251813739)%Z) ->
     fst (search_products_query exact_rows (TInt z) radius filetype) <> None) /\
  ((251813739 <= z)%Z ->
     fst (search_products_query exact_rows (TInt z) radius filetype) = None).
Proof.
  intros exact_rows z radius filetype.
  assert (He : exact_target_name (str_target (TInt z)) = None)
    by apply exact_target_name_int.
  split; [exact He|]. split.
  - unfold search_products_query, query_mast. simpl. simpl in He. rewrite He.
    destruct radius; [reflexivity|].
    destruct (String.eqb (lower filetype) "ffi"); reflexivity.
  - unfold search_products_query, int_target_warning. simpl. split.
    + intros [H|H].
      * replace ((0 <? z)%Z && (z <? 13161030)%Z) with true
          by (symmetry; apply andb_true_iff; split; apply Z.ltb_lt; lia).
        discriminate.
      * destruct ((0 <? z)%Z && (z <? 13161030)%Z); [discriminate|].
        replace (z <? 251813739)%Z with true by (symmetry; apply Z.ltb_lt; lia).
        discriminate.
    + intro H.
      replace (z <? 13161030)%Z with false by (symmetry; apply Z.ltb_ge; lia).
      replace (z <? 251813739)%Z with false by (symmetry; apply Z.ltb_ge; lia).
      now rewrite andb_false_r.
Qed.

Lemma int_target_cone_search_witness :
  exact_target_name (str_target (TInt 11904151)) = None /\
  fst (search_products_query (fun _ => 1%nat) (TInt 11904151) None "Lightcurve") <> None /\
  fst (search_products_query (fun _ => 1%nat) (TInt 300000000) None "Lightcurve") = None.
Proof.
  split; [exact (proj1 (int_target_cone_search (fun _ => 1%nat) 11904151 None "Lightcurve"))|].
  split.
  - apply (proj1 (proj2 (proj2 (int_target_cone_search (fun _ => 1%nat) 11904151 None
      "Lightcurve")))). left. lia.
  - apply (proj2 (proj2 (proj2 (int_target_cone_search (fun _ => 1%nat) 300000000 None
      "Lightcurve")))). lia.
Defined.

(** C1, counterexample: the bare integer 251813739 draws no warning. *)
Lemma int_target_no_warning_cex :
  search_products_query (fun _ => 0%nat) (TInt 251813739) None "Lightcurve" =
  (None, ByConeSearch).
Proof. vm_compute. reflexivity. Qed.

(** ** C3 *)

(** C3.  For a Kepler or K2 row, the cadence test keeps the row iff its
    description contains the cadence string, which is "<filetype> Short"
    for "short"/"sc", "<filetype>" for "any"/"both", and "<filetype> Long"
    for every other cadence value. *)
Theorem cadence_filter_kepler_k2 : forall table products campaign cadence filetype i r,
  nth_error products i = Some r ->
  (is_prov "kepler" r = true ->
     exists m, mask_kepler_products table products None None cadence filetype = Ok m /\
       nth_error m i = Some (contains (cadence_string cadence filetype) (description r))) /\
  (is_prov "k2" r = true ->
     nth_error (mask_k2_products products campaign cadence filetype) i =
       Some (contains (cadence_string cadence filetype) (description r))) /\
  ((cadence = "short" \/ cadence = "sc") ->
     cadence_string cadence filetype = filetype ++ " Short") /\
  ((cadence = "any" \/ cadence = "both") ->
     cadence_string cadence filetype = filetype) /\
  (~ In cadence ["short"; "sc"; "any"; "both"] ->
     cadence_string cadence filetype = filetype ++ " Long").
Proof.
  intros table products campaign cadence filetype i r Hr.
  split; [|split; [|split; [|split]]].
  - intro HK. rewrite mask_kepler_rowwise.
    rewrite (map_result_ok_map _ (fun r => is_prov "kepler" r &&
       contains (cadence_string cadence filetype) (description r)))
      by (intros x _; unfold kepler_row; now rewrite andb_true_r).
    eexists. split; [reflexivity|]. rewrite (map_nth_error _ _ _ Hr), HK. reflexivity.
  - intro HK. rewrite mask_k2_rowwise, (map_nth_error _ _ _ Hr).
    unfold k2_row. now rewrite HK.
  - intros [-> | ->]; reflexivity.
  - intros [-> | ->]; reflexivity.
  - intro H. unfold cadence_string.
    destruct (String.eqb_spec cadence "short"); [subst; simpl in H; tauto|].
    destruct (String.eqb_spec cadence "sc"); [subst; simpl in H; tauto|].
    destruct (String.eqb_spec cadence "any"); [subst; simpl in H; tauto|].
    destruct (String.eqb_spec cadence "both"); [subst; simpl in H; tauto|].
    reflexivity.
Qed.

Definition sample_kepler_row : row :=
  mkRow "Kepler" "Target Pixel Long Cadence (TPL) - Q5"
        "kplr011904151-2010078095331_lpd-targ.fits.gz"
        "mast:Kepler/url/missions/kepler/target_pixel_files/0119/011904151/kplr011904151-2010078095331_lpd-targ.fits.gz"
        0.

Lemma cadence_filter_kepler_k2_witness :
  exists m, mask_kepler_products [] [sample_kepler_row] None None "long" "Target Pixel" = Ok m /\
    nth_error m 0 = Some true.
Proof.
  destruct (proj1 (cadence_filter_kepler_k2 [] [sample_kepler_row] None "long"
     "Target Pixel" 0 sample_kepler_row eq_refl) eq_refl) as (m & Hm & Hn).
  exists m. split; [exact Hm|]. rewrite Hn. reflexivity.
Defined.

(** ** C6 *)

(** C6.  [_query_mast] produces an exact target name iff the lower-cased
    target is a mission prefix, an optional single space and a run of
    digits (with the optional final newline that the regex [$] accepts);
    the name is "kplr" + the digits zero-filled to 9 for "kic"/"kplr",
    "ktwo" + the zero-filled digits for "epic"/"ktwo", and the zero-filled
    digits alone for "tic"/"tess". *)
Theorem exact_target_name_correct : forall s e,
  exact_target_name s = Some e <->
  exists pre sep digits nl,
    lower s = pre ++ sep ++ digits ++ nl /\
    (sep = EmptyString \/ sep = " ") /\
    digits <> EmptyString /\ all_digits digits = true /\
    (nl = EmptyString \/ nl = newline) /\
    ( ((pre = "kplr" \/ pre = "kic") /\ e = "kplr" ++ zfill 9 digits)
   \/ ((pre = "ktwo" \/ pre = "epic") /\ e = "ktwo" ++ zfill 9 digits)
   \/ ((pre = "tess" \/ pre = "tic") /\ e = zfill 9 digits)).
Proof.
  intros s e. split; [apply exact_target_name_complete|].
  intros (pre & sep & digits & nl & Hs & Hsep & Hne & Hd & Hnl & Hcase).
  destruct (exact_target_name_sound s pre sep digits nl Hs Hsep Hne Hd Hnl)
    as (H1 & H2 & H3).
  destruct Hcase as [[Hp ->] | [[Hp ->] | [Hp ->]]]; auto.
Qed.

Lemma exact_target_name_correct_witness :
  exact_target_name "KIC 11904151" = Some "kplr011904151".
Proof.
  apply (proj2 (exact_target_name_correct "KIC 11904151" "kplr011904151")).
  exists "kic", " ", "11904151", EmptyString.
  split; [reflexivity|]. split; [right; reflexivity|].
  split; [discriminate|]. split; [reflexivity|]. split; [left; reflexivity|].
  left. split; [right; reflexivity|reflexivity].
Defined.

(** ** C8 *)

(** C8.  On an empty result, [download] and [download_all] both emit the
    warning "Cannot download from an empty search result." and return
    [None] without raising. *)
Theorem download_empty : forall (Product : Type) download_one is_tpf,
  Download.download Product download_one [] = ([Download.empty_warning], Ok None) /\
  Download.download_all Product download_one is_tpf [] =
    ([Download.empty_warning], Ok None).
Proof. intros. split; reflexivity. Qed.

(** ** C10 *)

(** C10.  [_mask_spoc_products] raises [UnboundLocalError] on a table with
    a SPOC row whenever the lower-cased filetype is none of "lightcurve",
    "target pixel" and "ffi"; with one of these three, or on a table
    without SPOC rows, it returns a mask. *)
Theorem spoc_unbound_filetype : forall products sector filetype,
  (Exists (fun r => is_prov "spoc" r = true) products ->
   ~ In (lower filetype) ["lightcurve"; "target pixel"; "ffi"] ->
   mask_spoc_products products sector filetype = Err UnboundLocalError) /\
  ((In (lower filetype) ["lightcurve"; "target pixel"; "ffi"] \/
    Forall (fun r => is_prov "spoc" r = false) products) ->
   exists m, mask_spoc_products products sector filetype = Ok m).
Proof.
  intros products sector filetype. unfold mask_spoc_products.
  split.
  - intros Hex Hft.
    destruct (mask_empty (map (is_prov "spoc") products)) eqn:E.
    + apply Exists_exists in Hex as (r & Hin & Hr).
      rewrite (mask_empty_map _ _ E r Hin) in Hr. discriminate.
    + unfold spoc_description_string.
      destruct (String.eqb_spec (lower filetype) "lightcurve") as [H|_];
        [rewrite H in Hft; simpl in Hft; tauto|].
      destruct (String.eqb_spec (lower filetype) "target pixel") as [H|_];
        [rewrite H in Hft; simpl in Hft; tauto|].
      destruct (String.eqb_spec (lower filetype) "ffi") as [H|_];
        [rewrite H in Hft; simpl in Hft; tauto|].
      reflexivity.
  - intros [Hft | Hall].
    + destruct (mask_empty (map (is_prov "spoc") products)); [eauto|].
      unfold spoc_description_string.
      simpl in Hft. destruct Hft as [H|[H|[H|[]]]]; rewrite <- H; simpl; eauto.
    + replace (mask_empty (map (is_prov "spoc") products)) with true; [eauto|].
      symmetry. unfold mask_empty. apply negb_true_iff.
      apply not_true_iff_false. intro H. apply existsb_exists in H as (b & Hb & ->).
      apply in_map_iff in Hb as (r & Hr & Hin).
      rewrite Forall_forall in Hall. rewrite (Hall r Hin) in Hr. discriminate.
Qed.

Definition sample_spoc_row : row :=
  mkRow "SPOC" "Light curves" "tess2018206045859-s0001-0000000261136679-0120-s_lc.fits"
        "mast:TESS/product/tess2018206045859-s0001-0000000261136679-0120-s_lc.fits" 0.

Lemma spoc_unbound_filetype_witness :
  mask_spoc_products [sample_spoc_row] None "Light Curve" = Err UnboundLocalError /\
  (exists m, mask_spoc_products [sample_spoc_row] None "Lightcurve" = Ok m).
Proof.
  split.
  - apply (proj1 (spoc_unbound_filetype [sample_spoc_row] None "Light Curve")).
    + constructor. reflexivity.
    + simpl. intros [H|[H|[H|[]]]]; discriminate.
  - apply (proj2 (spoc_unbound_filetype [sample_spoc_row] None "Lightcurve")).
    left. simpl. now left.
Defined.

End Claims.

Module Claims2.
Import Resolver Filters FilterFacts Claims.

(** ** C7 *)

(** C7.  After the family stage of [_filter_products], a row is kept iff
    it belongs to a requested family (Kepler when neither campaign nor
    sector is given, K2 when neither quarter nor sector is given, SPOC when
    neither quarter nor campaign is given) and passes that family's mask,
    or it belongs to none of the three families; in particular a row of no
    handled family is always kept. *)
Theorem family_stage_passthrough : forall table products campaign quarter month
    sector cadence provenance_name filetype m,
  family_mask table products campaign quarter month sector cadence
              provenance_name filetype = Ok m ->
  forall i r, nth_error products i = Some r ->
  (is_prov "kepler" r = false -> is_prov "k2" r = false -> is_prov "spoc" r = false ->
     nth_error m i = Some true) /\
  (nth_error m i = Some true <->
     (is_prov "kepler" r = true /\ mem "kepler" (provenance_lower provenance_name) = true /\
      campaign = None /\ sector = None /\
      kepler_row table quarter month cadence filetype r = Ok true) \/
     (is_prov "k2" r = true /\ mem "k2" (provenance_lower provenance_name) = true /\
      quarter = None /\ sector = None /\ k2_row cadence filetype r = true) \/
     (is_prov "spoc" r = true /\ mem "spoc" (provenance_lower provenance_name) = true /\
      quarter = None /\ campaign = None /\ spoc_row filetype r = Ok true) \/
     (is_prov "kepler" r = false /\ is_prov "k2" r = false /\ is_prov "spoc" r = false)).
Proof.
  intros table products campaign quarter month sector cadence provenance_name
    filetype m Hm i r Hr.
  rewrite (family_mask_nth _ _ _ _ _ _ _ _ _ _ Hm i r Hr).
  split.
  - intros A B C. now rewrite A, B, C.
  - destruct (prov_cases r) as [(A & B & C)|[(A & B & C)|[(A & B & C)|(A & B & C)]]];
      rewrite A, B, C, some_true_iff, ?andb_true_iff, ?is_none_iff, ?ok_true_iff;
      intuition (try discriminate).
Qed.

Lemma family_stage_passthrough_witness :
  exists m, family_mask [] [sample_kepler_row; sample_spoc_row]
    None None None None "long" None "Lightcurve" = Ok m /\
    (nth_error m 0 = Some true <->
     (is_prov "kepler" sample_kepler_row = true /\ mem "kepler" default_provenance = true /\
      @None (list Z) = None /\ @None (list Z) = None /\
      kepler_row [] None None "long" "Lightcurve" sample_kepler_row = Ok true) \/
     (is_prov "k2" sample_kepler_row = true /\ mem "k2" default_provenance = true /\
      @None (list Z) = None /\ @None (list Z) = None /\
      k2_row "long" "Lightcurve" sample_kepler_row = true) \/
     (is_prov "spoc" sample_kepler_row = true /\ mem "spoc" default_provenance = true /\
      @None (list Z) = None /\ @None (list Z) = None /\
      spoc_row "Lightcurve" sample_kepler_row = Ok true) \/
     (is_prov "kepler" sample_kepler_row = false /\ is_prov "k2" sample_kepler_row = false /\
      is_prov "spoc" sample_kepler_row = false)).
Proof.
  eexists. split; [vm_compute; reflexivity|].
  exact (proj2 (family_stage_passthrough [] [sample_kepler_row; sample_spoc_row]
    None None None None "long" None "Lightcurve" _ eq_refl 0 sample_kepler_row eq_refl)).
Defined.

(** ** C4 *)

(** C4 (corrected).  Every row [_filter_products] returns has a file name
    whose lower-cased form ends in "fits" or "fits.gz" (the test has no
    leading dot). *)
Theorem filter_products_fits_only : forall table products campaign quarter month
    sector cadence limit provenance_name filetype out,
  filter_products table products campaign quarter month sector cadence limit
                  provenance_name filetype = Ok out ->
  forall x, In x out -> fits_filename (productFilename x) = true.
Proof.
  intros table products campaign quarter month sector cadence limit
    provenance_name filetype out H x Hx.
  destruct (filter_products_In _ _ _ _ _ _ _ _ _ _ _ x H Hx) as (m & i & _ & _ & _ & Hf).
  exact Hf.
Qed.

Lemma filter_products_fits_only_witness :
  fits_filename (productFilename sample_kepler_row) = true.
Proof.
  apply (filter_products_fits_only [] [sample_kepler_row] None None None None "long"
           None None "Target Pixel" [sample_kepler_row]).
  - vm_compute. reflexivity.
  - now left.
Defined.

Definition dotless_row : row :=
  mkRow "Kepler" "Target Pixel Long Cadence (TPL) - Q5"
        "kplr011904151-2010078095331_lpd-targfits"
        "mast:Kepler/url/kplr011904151-2010078095331_lpd-targfits" 0.

(** C4, counterexample: a Kepler row whose file name ends in "fits" but in
    neither ".fits" nor ".fits.gz" is kept. *)
Lemma fits_without_dot_cex :
  ends_with ".fits" (lower (productFilename dotless_row)) = false /\
  ends_with ".fits.gz" (lower (productFilename dotless_row)) = false /\
  filter_products [] [dotless_row] None None None None "long" None None "Target Pixel" =
    Ok [dotless_row].
Proof. vm_compute. repeat split. Qed.

(** ** C5 *)

(** C5.  The rows [_filter_products] returns are the rows that pass its
    masks, sorted by ascending distance with ties broken by the file name;
    with [limit = N] (N >= 0) and more than N matching rows, the result is
    exactly the first N rows of that order. *)
Theorem filter_products_sorted_limit : forall table products campaign quarter
    month sector cadence limit provenance_name filetype out,
  filter_products table products campaign quarter month sector cadence limit
                  provenance_name filetype = Ok out ->
  exists matched,
    (exists m, family_mask table products campaign quarter month sector cadence
                           provenance_name filetype = Ok m /\
       matched = select (mask_and m (map (fun r => fits_filename (productFilename r))
                                         products)) products) /\
    Permutation matched (sort_rows matched) /\
    StronglySorted row_order (sort_rows matched) /\
    out = apply_limit limit (sort_rows matched) /\
    StronglySorted row_order out /\
    (forall N, limit = Some N -> (0 <= N)%Z -> (Z.to_nat N < length matched)%nat ->
       out = firstn (Z.to_nat N) (sort_rows matched) /\ length out = Z.to_nat N).
Proof.
  intros table products campaign quarter month sector cadence limit
    provenance_name filetype out H.
  destruct (filter_products_ok _ _ _ _ _ _ _ _ _ _ _ H) as (m & Hm & Hout).
  eexists. split; [exists m; split; [exact Hm|reflexivity]|].
  split; [apply sort_rows_perm|]. split; [apply sort_rows_sorted|].
  split; [exact Hout|]. split; [rewrite Hout; apply apply_limit_sorted, sort_rows_sorted|].
  intros N HN H0 Hlt. subst limit. rewrite Hout. simpl. unfold py_slice_to.
  replace (0 <=? N)%Z with true by (symmetry; now apply Z.leb_le).
  split; [reflexivity|]. rewrite length_firstn.
  rewrite <- (Permutation_length (sort_rows_perm _)). lia.
Qed.

Definition far_row : row :=
  mkRow "Kepler" "Target Pixel Long Cadence (TPL) - Q6"
        "kplr011904151-2010174085026_lpd-targ.fits.gz"
        "mast:Kepler/url/kplr011904151-2010174085026_lpd-targ.fits.gz" 2.

Lemma filter_products_sorted_limit_witness :
  exists out,
    filter_products [] [far_row; sample_kepler_row] None None None None "long" (Some 1%Z)
      None "Target Pixel" = Ok out /\
    StronglySorted row_order out.
Proof.
  eexists. split; [vm_compute; reflexivity|].
  destruct (filter_products_sorted_limit [] [far_row; sample_kepler_row] None None None
     None "long" (Some 1%Z) None "Target Pixel" _ eq_refl)
    as (matched & _ & _ & _ & _ & Hs & _).
  exact Hs.
Defined.

(** ** C2 *)

(** C2 (corrected).  On a non-empty table whose rows are all Kepler, K2
    or SPOC rows, with quarter 5, no campaign, sector, month or limit, and
    a provenance list that includes Kepler, [_filter_products] returns
    exactly the Kepler rows whose description contains the cadence string
    and, lower-cased and without hyphens, ends with "q5", and whose file
    name passes the "fits"/"fits.gz" test; no K2 or SPOC row is kept. *)
Theorem quarter5_filter : forall table products cadence provenance_name filetype,
  products <> [] ->
  Forall (fun r => is_prov "kepler" r || is_prov "k2" r || is_prov "spoc" r = true)
         products ->
  mem "kepler" (provenance_lower provenance_name) = true ->
  exists out,
    filter_products table products None (Some [5%Z]) None None cadence None
                    provenance_name filetype = Ok out /\
    forall x, In x out <->
      In x products /\ is_prov "kepler" x = true /\
      contains (cadence_string cadence filetype) (description x) = true /\
      ends_with "q5" (remove_char "-" (lower (description x))) = true /\
      fits_filename (productFilename x) = true.
Proof.
  intros table products cadence provenance_name filetype Hne Hall Hprov.
  assert (Hk : exists km, mask_kepler_products table products (Some [5%Z]) None
                            cadence filetype = Ok km).
  { rewrite mask_kepler_rowwise. apply map_result_total.
    intros x _. unfold kepler_row. eauto. }
  destruct Hk as [km Hkm].
  assert (Hm : exists m, family_mask table products None (Some [5%Z]) None None
                           cadence provenance_name filetype = Ok m).
  { unfold family_mask. destruct products as [|r0 rest]; [congruence|].
    cbv beta zeta. rewrite Hprov, Hkm. simpl.
    rewrite !andb_true_r, !andb_false_r. eauto. }
  destruct Hm as [m Hm].
  assert (Hf : filter_products table products None (Some [5%Z]) None None cadence None
                 provenance_name filetype =
               Ok (apply_limit None (sort_rows (select (mask_and m
                    (map (fun r => fits_filename (productFilename r)) products)) products))))
    by (unfold filter_products; rewrite Hm; reflexivity).
  eexists. split; [exact Hf|]. intro x. split.
  - intro Hx.
    destruct (filter_products_In _ _ _ _ _ _ _ _ _ _ _ x Hf Hx)
      as (m' & i & Hm' & Hi & Hb & Hfits).
    rewrite Hm in Hm'. inversion Hm'; subst m'.
    rewrite (family_mask_nth _ _ _ _ _ _ _ _ _ _ Hm i x Hi) in Hb.
    rewrite Forall_forall in Hall. specialize (Hall x (nth_error_In _ _ Hi)).
    destruct (prov_cases x) as [(A & B & C)|[(A & B & C)|[(A & B & C)|(A & B & C)]]];
      rewrite ?A, ?B, ?C in Hb, Hall; simpl in Hb, Hall;
      rewrite ?andb_false_r in Hb; try discriminate.
    rewrite A in Hb. simpl in Hb.
    injection Hb as Hb'. rewrite orb_false_r in Hb'.
    apply andb_prop in Hb' as [_ Hb']. apply andb_prop in Hb' as [Hc Hq].
    repeat split; auto. exact (nth_error_In _ _ Hi).
  - intros (Hin & HK & Hc & Hq & Hfits).
    apply In_nth_error in Hin as [i Hi].
    simpl. apply (Permutation_in _ (sort_rows_perm _)).
    apply select_In. exists i. split; [exact Hi|].
    unfold mask_and. erewrite nth_zip_with;
      [| exact (family_mask_nth _ _ _ _ _ _ _ _ _ _ Hm i x Hi)
       | exact (map_nth_error _ _ _ Hi)].
    rewrite HK, Hprov, Hfits. unfold kepler_row. rewrite HK, Hc. simpl.
    unfold quarter_match. simpl. rewrite Hq. reflexivity.
Qed.

Definition sample_k2_row : row :=
  mkRow "K2" "Target Pixel Long Cadence (TPL) - C5"
        "ktwo211611158-c05_lpd-targ.fits.gz"
        "mast:K2/url/ktwo211611158-c05_lpd-targ.fits.gz" 0.

Lemma quarter5_filter_witness :
  exists out,
    filter_products [] [sample_kepler_row; sample_k2_row; sample_spoc_row] None
      (Some [5%Z]) None None "long" None None "Target Pixel" = Ok out /\
    (In sample_kepler_row out <->
      In sample_kepler_row [sample_kepler_row; sample_k2_row; sample_spoc_row] /\
      is_prov "kepler" sample_kepler_row = true /\
      contains (cadence_string "long" "Target Pixel") (description sample_kepler_row) = true /\
      ends_with "q5" (remove_char "-" (lower (description sample_kepler_row))) = true /\
      fits_filename (productFilename sample_kepler_row) = true).
Proof.
  destruct (quarter5_filter [] [sample_kepler_row; sample_k2_row; sample_spoc_row]
     "long" None "Target Pixel") as (out & Hout & Hiff).
  - discriminate.
  - repeat constructor.
  - reflexivity.
  - exists out. split; [exact Hout|]. apply Hiff.
Defined.

Definition txt_row : row :=
  mkRow "Kepler" "Target Pixel Long Cadence (TPL) - Q5"
        "kplr011904151-2010078095331_lpd-targ.txt"
        "mast:Kepler/url/kplr011904151-2010078095331_lpd-targ.txt" 0.

(** C2, counterexample: a Kepler row whose description ends with "Q5" and
    contains "Target Pixel Long" is dropped because of its file name. *)
Lemma quarter5_non_fits_cex :
  is_prov "kepler" txt_row = true /\
  contains (cadence_string "long" "Target Pixel") (description txt_row) = true /\
  ends_with "q5" (remove_char "-" (lower (description txt_row))) = true /\
  filter_products [] [txt_row] None (Some [5%Z]) None None "long" None None
                  "Target Pixel" = Ok [].
Proof. vm_compute. repeat split. Qed.

(** ** C9 *)

(** C9 (corrected).  In the month loop of [_mask_kepler_products] a lookup
    miss never raises: a candidate row for which no requested month has a
    line for its quarter is cleared.  The loop raises only when a candidate
    row's quarter (the text after the last " - ") is not an integer or its
    URI file name has no "-" field, and it returns a mask whenever every
    candidate row parses. *)
Theorem month_filter_lookup_miss : forall table products quarter months cadence filetype,
  (forall m i r q,
     mask_kepler_products table products quarter (Some months) cadence filetype = Ok m ->
     nth_error products i = Some r ->
     month_candidate quarter cadence filetype r = true ->
     parse_quarter (description r) = Ok q ->
     (forall mo, In mo months ->
        find (fun e => (Month e =? mo)%Z && (Quarter e =? q)%Z) table = None) ->
     nth_error m i = Some false) /\
  (forall e,
     mask_kepler_products table products quarter (Some months) cadence filetype = Err e ->
     exists r, In r products /\ month_candidate quarter cadence filetype r = true /\
       (parse_quarter (description r) = Err e \/
        exists q, parse_quarter (description r) = Ok q /\ parse_date (dataURI r) = Err e)) /\
  ((forall r, In r products -> month_candidate quarter cadence filetype r = true ->
      (exists q, parse_quarter (description r) = Ok q) /\
      (exists d, parse_date (dataURI r) = Ok d)) ->
   exists m, mask_kepler_products table products quarter (Some months) cadence filetype = Ok m).
Proof.
  intros table products quarter months cadence filetype.
  split; [|split].
  - intros m i r q Hm Hr Hc Hq Hmiss.
    rewrite mask_kepler_rowwise in Hm.
    destruct (map_result_nth _ _ _ Hm i r Hr) as (y & Hy & Hn).
    rewrite kepler_row_month, Hc in Hy. simpl in Hy. rewrite Hq in Hy. simpl in Hy.
    rewrite (permitted_dates_miss _ _ _ Hmiss) in Hy.
    destruct (parse_date (dataURI r)); simpl in Hy; [|discriminate].
    inversion Hy; subst y. exact Hn.
  - intros e He. rewrite mask_kepler_rowwise in He.
    destruct (map_result_err _ _ _ He) as (r & Hin & Hr).
    exists r. split; [exact Hin|].
    rewrite kepler_row_month in Hr. unfold month_bit in Hr.
    destruct (month_candidate quarter cadence filetype r); [|discriminate].
    split; [reflexivity|].
    destruct (parse_quarter (description r)) as [q|e'] eqn:Hq; simpl in Hr.
    + right. exists q. split; [reflexivity|].
      destruct (parse_date (dataURI r)); simpl in Hr; [discriminate|congruence].
    + left. congruence.
  - intro Hall. rewrite mask_kepler_rowwise. apply map_result_total.
    intros r Hin. rewrite kepler_row_month. unfold month_bit.
    destruct (month_candidate quarter cadence filetype r) eqn:Hc; [|eauto].
    destruct (Hall r Hin Hc) as ((q & Hq) & (d & Hd)).
    rewrite Hq. simpl. rewrite Hd. simpl. eauto.
Qed.

Definition short_row : row :=
  mkRow "Kepler" "Target Pixel Short Cadence (TPS) - Q5"
        "kplr011904151-2010111125026_spd-targ.fits.gz"
        "mast:Kepler/url/kplr011904151-2010111125026_spd-targ.fits.gz" 0.

Definition sample_lookup : list lookup_row :=
  [mkLookup 1 5 "2010078095331"; mkLookup 2 5 "2010111125026"].

Lemma month_filter_lookup_miss_witness :
  exists m,
    mask_kepler_products sample_lookup [short_row] None (Some [4%Z]) "short"
      "Target Pixel" = Ok m /\ nth_error m 0 = Some false.
Proof.
  eexists. split; [vm_compute; reflexivity|].
  apply (proj1 (month_filter_lookup_miss sample_lookup [short_row] None [4%Z] "short"
      "Target Pixel") _ 0 short_row 5%Z).
  - vm_compute. reflexivity.
  - reflexivity.
  - vm_compute. reflexivity.
  - vm_compute. reflexivity.
  - intros mo [<- | []]. vm_compute. reflexivity.
Defined.

Definition dashless_row : row :=
  mkRow "Kepler" "Target Pixel Short Cadence (TPS) - Q5"
        "kplr011904151_spd_targ.fits.gz"
        "mast:Kepler/url/kplr011904151_spd_targ.fits.gz" 0.

(** C9, counterexample: a short-cadence candidate whose (quarter 5,
    month 4) pair has no lookup line makes the filter raise an
    [IndexError], because its URI file name has no "-" field, before the
    lookup is reached. *)
Lemma month_filter_raises_cex :
  month_candidate None "short" "Target Pixel" dashless_row = true /\
  parse_quarter (description dashless_row) = Ok 5%Z /\
  permitted_dates sample_lookup [4%Z] 5 = [] /\
  mask_kepler_products sample_lookup [dashless_row] None (Some [4%Z]) "short"
    "Target Pixel" = Err IndexError /\
  filter_products sample_lookup [dashless_row] None None (Some [4%Z]) None "short" None
    None "Target Pixel" = Err IndexError.
Proof. vm_compute. repeat split. Qed.

End Claims2.

(** * Further properties of the search module *)

Module FilterFacts2.
Import Filters FilterFacts.








End FilterFacts2.

Module FilterExtras.
Import Filters FilterFacts FilterFacts2 Claims Claims2.

(** ** The filter stage *)

Lemma mask_spoc_err : forall products sector filetype e,
  mask_spoc_products products sector filetype = Err e ->
  e = UnboundLocalError /\ spoc_description_string filetype = Err UnboundLocalError /\
  exists r, In r products /\ is_prov "spoc" r = true.
Proof.
  intros products sector filetype e H. unfold mask_spoc_products in H.
  destruct (mask_empty (map (is_prov "spoc") products)) eqn:E; [discriminate|].
  destruct (spoc_description_string filetype) as [d|e'] eqn:Hds; simpl in H;
    [discriminate|].
  assert (e' = UnboundLocalError) as ->.
  { unfold spoc_description_string in Hds.
    repeat match type of Hds with
           | context [if ?b then _ else _] => destruct b
           end; congruence. }
  split; [congruence|]. split; [reflexivity|].
  unfold mask_empty in E. apply negb_false_iff, existsb_exists in E as (b & Hb & ->).
  apply in_map_iff in Hb as (x & Hx & Hin). eauto.
Qed.

(** [_filter_products] reads its [campaign] and [sector] arguments only
    through [is None]: two calls that agree on which of them are [None]
    return the same result, whatever the numbers are. *)
Theorem filter_products_ignores_campaign_sector_values : forall table products
    campaign1 campaign2 quarter month sector1 sector2 cadence limit provenance_name filetype,
  is_none campaign1 = is_none campaign2 ->
  is_none sector1 = is_none sector2 ->
  filter_products table products campaign1 quarter month sector1 cadence limit
                  provenance_name filetype =
  filter_products table products campaign2 quarter month sector2 cadence limit
                  provenance_name filetype.
Proof.
  intros table products campaign1 campaign2 quarter month sector1 sector2 cadence limit
    provenance_name filetype Hc Hs.
  unfold filter_products, family_mask.
  destruct products as [|r0 rest]; [reflexivity|].
  rewrite Hc, Hs. reflexivity.
Qed.

Lemma filter_products_ignores_campaign_sector_values_witness :
  filter_products [] [sample_k2_row] (Some [5%Z]) None None None "long" None None
                  "Target Pixel" =
  filter_products [] [sample_k2_row] (Some [0%Z]) None None None "long" None None
                  "Target Pixel".
Proof.
  apply filter_products_ignores_campaign_sector_values; reflexivity.
Defined.



(** With a negative [limit = -k], [_filter_products] returns the rows it
    returns without a limit, less the last [k] of them (Python's
    [products[0:-k]]). *)
Theorem filter_products_negative_limit : forall table products campaign quarter month
    sector cadence provenance_name filetype k out,
  (0 < k)%Z ->
  filter_products table products campaign quarter month sector cadence (Some (- k)%Z)
                  provenance_name filetype = Ok out ->
  exists all_rows,
    filter_products table products campaign quarter month sector cadence None
                    provenance_name filetype = Ok all_rows /\
    out = firstn (length all_rows - Z.to_nat k) all_rows.
Proof.
  intros table products campaign quarter month sector cadence provenance_name filetype
    k out Hk H.
  unfold filter_products in *.
  destruct (family_mask table products campaign quarter month sector cadence
                        provenance_name filetype) as [m|e]; simpl in *; [|discriminate].
  eexists. split; [reflexivity|].
  injection H as <-. unfold py_slice_to.
  replace (0 <=? - k)%Z with false by (symmetry; apply Z.leb_gt; lia).
  rewrite Z.opp_involutive. reflexivity.
Qed.

Lemma filter_products_negative_limit_witness :
  exists all_rows,
    filter_products [] [far_row; sample_kepler_row] None None None None "long" None
                    None "Target Pixel" = Ok all_rows /\
    [sample_kepler_row] = firstn (length all_rows - 1) all_rows.
Proof.
  apply (filter_products_negative_limit [] [far_row; sample_kepler_row] None None None None
           "long" None "Target Pixel" 1%Z).
  - lia.
  - vm_compute. reflexivity.
Defined.

(** [_filter_products] raises in three cases only: a [TypeError] on an
    empty table, an [UnboundLocalError] when the SPOC filter runs on a
    table with a SPOC row and the filetype is not recognised, and an error
    of the month filter, raised while parsing the quarter or the date of a
    short-cadence Kepler candidate row. *)
Theorem filter_products_errors : forall table products campaign quarter month sector
    cadence limit provenance_name filetype e,
  filter_products table products campaign quarter month sector cadence limit
                  provenance_name filetype = Err e ->
  (products = [] /\ e = TypeError) \/
  (e = UnboundLocalError /\
   mem "spoc" (provenance_lower provenance_name) && is_none quarter && is_none campaign = true /\
   spoc_description_string filetype = Err UnboundLocalError /\
   exists r, In r products /\ is_prov "spoc" r = true) \/
  (exists months r, month = Some months /\
   mem "kepler" (provenance_lower provenance_name) && is_none campaign && is_none sector = true /\
   In r products /\ month_candidate quarter cadence filetype r = true /\
   (parse_quarter (description r) = Err e \/ parse_date (dataURI r) = Err e)).
Proof.
  intros table products campaign quarter month sector cadence limit provenance_name
    filetype e H.
  unfold filter_products in H.
  destruct (family_mask table products campaign quarter month sector cadence
                        provenance_name filetype) as [m|e'] eqn:Hm; simpl in H;
    [discriminate|injection H as He; subst e'].
  unfold family_mask in Hm. destruct products as [|r0 rest]; [left; now inversion Hm|].
  right. cbv beta zeta in Hm.
  destruct (mem "kepler" (provenance_lower provenance_name) && is_none campaign &&
            is_none sector) eqn:EK.
  - destruct (mask_kepler_products table (r0 :: rest) quarter month cadence filetype)
      as [km|e1] eqn:Hkm; simpl in Hm.
    + destruct (mem "spoc" (provenance_lower provenance_name) && is_none quarter &&
                is_none campaign) eqn:ES; [|discriminate].
      destruct (mask_spoc_products (r0 :: rest) sector filetype) as [sm|e2] eqn:Hsm;
        simpl in Hm; [discriminate|].
      left. destruct (mask_spoc_err _ _ _ _ Hsm) as (-> & Hds & Hr).
      assert (e = UnboundLocalError) as -> by congruence. auto.
    + right. assert (e1 = e) as -> by congruence.
      rewrite mask_kepler_rowwise in Hkm.
      destruct (map_result_err _ _ _ Hkm) as (r & Hin & Hr).
      destruct month as [months|]; [|unfold kepler_row in Hr; discriminate].
      rewrite kepler_row_month in Hr. unfold month_bit in Hr.
      destruct (month_candidate quarter cadence filetype r) eqn:Hc; [|discriminate].
      exists months, r. repeat split; auto.
      destruct (parse_quarter (description r)) as [q|e3] eqn:Hq; simpl in Hr.
      * right. destruct (parse_date (dataURI r)); simpl in Hr; [discriminate|congruence].
      * left. congruence.
  - simpl in Hm.
    destruct (mem "spoc" (provenance_lower provenance_name) && is_none quarter &&
              is_none campaign) eqn:ES; [|discriminate].
    destruct (mask_spoc_products (r0 :: rest) sector filetype) as [sm|e2] eqn:Hsm;
      simpl in Hm; [discriminate|].
    left. destruct (mask_spoc_err _ _ _ _ Hsm) as (-> & Hds & Hr).
    assert (e = UnboundLocalError) as -> by congruence. auto.
Qed.

Lemma filter_products_errors_witness :
  filter_products [] [sample_spoc_row] None None None None "long" None None "FFI Cutout" =
    Err UnboundLocalError /\
  (([sample_spoc_row] = [] /\ UnboundLocalError = TypeError) \/
   (UnboundLocalError = UnboundLocalError /\
    mem "spoc" (provenance_lower None) && is_none (@None (list Z)) &&
      is_none (@None (list Z)) = true /\
    spoc_description_string "FFI Cutout" = Err UnboundLocalError /\
    exists r, In r [sample_spoc_row] /\ is_prov "spoc" r = true) \/
   (exists months r, @None (list Z) = Some months /\
    mem "kepler" (provenance_lower None) && is_none (@None (list Z)) &&
      is_none (@None (list Z)) = true /\
    In r [sample_spoc_row] /\ month_candidate None "long" "FFI Cutout" r = true /\
    (parse_quarter (description r) = Err UnboundLocalError \/
     parse_date (dataURI r) = Err UnboundLocalError))).
Proof.
  assert (H : filter_products [] [sample_spoc_row] None None None None "long" None None
                "FFI Cutout" = Err UnboundLocalError) by (vm_compute; reflexivity).
  split; [exact H|].
  exact (filter_products_errors _ _ _ _ _ _ _ _ _ _ _ H).
Defined.

End FilterExtras.

Module DownloadExtras.
Import Filters Download.

(** ** [download] and [download_all] *)

Section DownloadExtras.

Variable Product : Type.
Variable download_one : list row -> list string * result Product.
Variable is_target_pixel_file : Product -> bool.

(** The warnings of a run of [download_rows] over the rows it handles. *)
Definition row_warnings (rows : list row) : list string :=
  concat (map (fun r => fst (download_one [r])) rows).

Lemma download_rows_ok_fwd : forall rows w ps,
  download_rows Product download_one rows = (w, Ok ps) ->
  Forall2 (fun r p => snd (download_one [r]) = Ok p) rows ps /\ w = row_warnings rows.
Proof.
  unfold row_warnings.
  induction rows as [|r rows IH]; intros w ps H; simpl in *.
  - injection H as <- <-. split; [constructor | reflexivity].
  - destruct (download_one [r]) as [w0 [p|e]] eqn:Hr; [|discriminate].
    destruct (download_rows Product download_one rows) as [w1 [ps'|e]] eqn:Hrest;
      simpl in H; [|discriminate].
    injection H as <- <-.
    destruct (IH w1 ps' eq_refl) as [HF ->].
    split; [constructor; [rewrite Hr; reflexivity | exact HF] | reflexivity].
Qed.

Lemma download_rows_ok_bwd : forall rows ps,
  Forall2 (fun r p => snd (download_one [r]) = Ok p) rows ps ->
  download_rows Product download_one rows = (row_warnings rows, Ok ps).
Proof.
  unfold row_warnings.
  intros rows ps H. induction H as [|r p rows ps Hp HF IH]; [reflexivity|].
  simpl. destruct (download_one [r]) as [w0 res] eqn:Hr. simpl in Hp. subst res.
  rewrite IH. reflexivity.
Qed.

Lemma download_rows_err : forall rows w e,
  download_rows Product download_one rows = (w, Err e) ->
  exists pre r post ps,
    rows = (pre ++ r :: post)%list /\
    Forall2 (fun r p => snd (download_one [r]) = Ok p) pre ps /\
    snd (download_one [r]) = Err e /\
    w = (row_warnings pre ++ fst (download_one [r]))%list.
Proof.
  unfold row_warnings.
  induction rows as [|r rows IH]; intros w e H; simpl in *; [discriminate|].
  destruct (download_one [r]) as [w0 [p|e0]] eqn:Hr.
  - destruct (download_rows Product download_one rows) as [w1 [ps'|e1]] eqn:Hrest;
      simpl in H; [discriminate|].
    injection H as <- <-.
    destruct (IH w1 e1 eq_refl) as (pre & r' & post & ps & -> & HF & He & ->).
    exists (r :: pre), r', post, (p :: ps). repeat split.
    + constructor; [rewrite Hr; reflexivity | exact HF].
    + exact He.
    + simpl. rewrite Hr. simpl. rewrite app_assoc. reflexivity.
  - injection H as <- <-.
    exists [], r, rows, []. repeat split; [constructor | rewrite Hr; reflexivity |].
    simpl. rewrite Hr. reflexivity.
Qed.

Lemma download_rows_all_ok : forall table w c,
  download_all Product download_one is_target_pixel_file table = (w, Ok (Some c)) ->
  exists p0 ps,
    Forall2 (fun r p => snd (download_one [r]) = Ok p) table (p0 :: ps) /\
    w = row_warnings table /\
    c = (if is_target_pixel_file p0 then TargetPixelFileCollection Product (p0 :: ps)
         else LightCurveCollection Product (p0 :: ps)).
Proof.
  intros table w c H. unfold download_all in H.
  destruct (length table =? 0)%nat eqn:Hlen; [discriminate|].
  destruct (download_rows Product download_one table) as [w' [ps|e]] eqn:Hr;
    simpl in H; [|discriminate].
  destruct (download_rows_ok_fwd _ _ _ Hr) as [HF ->].
  destruct ps as [|p0 ps]; [discriminate|].
  exists p0, ps. split; [exact HF|]. split; [now injection H|].
  destruct (is_target_pixel_file p0); injection H as _ <-; reflexivity.
Qed.

(** [download_all] on a non-empty table succeeds exactly when every row's
    own [_download_one] call succeeds: the collection then holds those
    products in the table's order, its kind is decided by the first one, and
    the warnings are those of the calls, in order. *)
Theorem download_all_ok : forall table w c,
  download_all Product download_one is_target_pixel_file table = (w, Ok (Some c)) ->
  exists p0 ps,
    Forall2 (fun r p => snd (download_one [r]) = Ok p) table (p0 :: ps) /\
    w = row_warnings table /\
    c = (if is_target_pixel_file p0 then TargetPixelFileCollection Product (p0 :: ps)
         else LightCurveCollection Product (p0 :: ps)).
Proof. exact download_rows_all_ok. Qed.

(** [download_all] raises only what one of the [_download_one] calls
    raises: the table splits at the first row whose download fails, every
    earlier row was downloaded, no later row is tried, and the
    [IndexError] of [products[0]] never happens. *)
Theorem download_all_err : forall table w e,
  download_all Product download_one is_target_pixel_file table = (w, Err e) ->
  exists pre r post ps,
    table = (pre ++ r :: post)%list /\
    Forall2 (fun r p => snd (download_one [r]) = Ok p) pre ps /\
    snd (download_one [r]) = Err e /\
    w = (row_warnings pre ++ fst (download_one [r]))%list.
Proof.
  intros table w e H. unfold download_all in H.
  destruct (length table =? 0)%nat eqn:Hlen; [discriminate|].
  destruct (download_rows Product download_one table) as [w' [ps|e']] eqn:Hr;
    simpl in H.
  - destruct ps as [|p0 ps].
    + destruct (download_rows_ok_fwd _ _ _ Hr) as [HF _].
      inversion HF; subst. discriminate.
    + destruct (is_target_pixel_file p0); discriminate.
  - injection H as <- <-. exact (download_rows_err _ _ _ Hr).
Qed.


End DownloadExtras.
End DownloadExtras.

Module DownloadWitnesses.
Import Filters Download DownloadExtras Claims Claims2.

(** A stand-in for [_download_one]: the product of a row is its distance,
    and the download of a row at a negative distance raises. *)
Definition toy_download_one (rows : list row) : list string * result Z :=
  match rows with
  | r :: _ => if (distance r <? 0)%Z then (["failed"], Err TypeError)
              else (["fetched"], Ok (distance r))
  | [] => ([], Err IndexError)
  end.

Definition toy_is_tpf (p : Z) : bool := (p =? 0)%Z.

Definition broken_row : row :=
  mkRow "Kepler" "Target Pixel Long Cadence (TPL) - Q7"
        "kplr011904151-2010265121752_lpd-targ.fits.gz"
        "mast:Kepler/url/kplr011904151-2010265121752_lpd-targ.fits.gz" (-1).

Lemma download_all_ok_witness :
  download_all Z toy_download_one toy_is_tpf [sample_kepler_row; far_row] =
    (["fetched"; "fetched"], Ok (Some (TargetPixelFileCollection Z [0; 2]%Z))) /\
  exists p0 ps,
    Forall2 (fun r p => snd (toy_download_one [r]) = Ok p)
            [sample_kepler_row; far_row] (p0 :: ps) /\
    ["fetched"; "fetched"] = row_warnings Z toy_download_one [sample_kepler_row; far_row] /\
    TargetPixelFileCollection Z [0; 2]%Z =
      (if toy_is_tpf p0 then TargetPixelFileCollection Z (p0 :: ps)
       else LightCurveCollection Z (p0 :: ps)).
Proof.
  assert (H : download_all Z toy_download_one toy_is_tpf [sample_kepler_row; far_row] =
    (["fetched"; "fetched"], Ok (Some (TargetPixelFileCollection Z [0; 2]%Z))))
    by reflexivity.
  split; [exact H|]. exact (download_all_ok _ _ _ _ _ _ H).
Defined.

Lemma download_all_err_witness :
  download_all Z toy_download_one toy_is_tpf [far_row; broken_row; sample_kepler_row] =
    (["fetched"; "failed"], Err TypeError) /\
  exists pre r post ps,
    [far_row; broken_row; sample_kepler_row] = (pre ++ r :: post)%list /\
    Forall2 (fun r p => snd (toy_download_one [r]) = Ok p) pre ps /\
    snd (toy_download_one [r]) = Err TypeError /\
    ["fetched"; "failed"] = (row_warnings Z toy_download_one pre ++
                             fst (toy_download_one [r]))%list.
Proof.
  assert (H : download_all Z toy_download_one toy_is_tpf
                [far_row; broken_row; sample_kepler_row] =
              (["fetched"; "failed"], Err TypeError)) by reflexivity.
  split; [exact H|]. exact (download_all_err _ _ _ _ _ _ H).
Defined.


End DownloadWitnesses.

Module DownloadOneExtras.
Import Search DownloadOne.

(** ** [_download_one] *)

Section DownloadOneExtras.

Variables Row Product CutoutSize : Type.
Variables row_description row_target_name row_targetid : Row -> string.
Variable row_sequence_number : Row -> Z.
Variable fetch_tesscut_path : string -> Z -> option CutoutSize -> outcome string.
Variable str_exc : search_error -> string.
Variable download_products : Row -> outcome string.
Variable read : string -> option string -> outcome Product.

Let dl := download_one Row Product CutoutSize row_description row_target_name
            row_targetid row_sequence_number fetch_tesscut_path str_exc
            download_products read.


(** An [HTTPError] out of [_download_one] is either the one it raises
    itself, for a TESSCut row whose fetch failed with "504" in its message
    (the message is kept after the service's notice), or one raised by
    [read] or by the archive download, passed through. *)
Theorem download_one_http_error : forall table cutout_size m,
  snd (dl table cutout_size) = Raise (HTTPError m) ->
  exists r rest, table = r :: rest /\
  ((contains "FFI Cutout" (row_description r) = true /\
    ((exists exc, fetch_tesscut_path (row_target_name r) (row_sequence_number r)
                    cutout_size = Raise exc /\
       contains "504" (str_exc exc) = true /\ m = tesscut_unavailable ++ str_exc exc) \/
     (exists path, fetch_tesscut_path (row_target_name r) (row_sequence_number r)
                     cutout_size = Done path /\
       read path (Some (row_targetid r)) = Raise (HTTPError m)))) \/
   (contains "FFI Cutout" (row_description r) = false /\
    (download_products r = Raise (HTTPError m) \/
     exists path, download_products r = Done path /\
       read path None = Raise (HTTPError m)))).
Proof.
  intros table cutout_size m H. unfold dl, download_one in H.
  destruct table as [|r rest]; [discriminate|]. exists r, rest. split; [reflexivity|].
  destruct (contains "FFI Cutout" (row_description r)) eqn:Hc.
  - left. split; [reflexivity|]. unfold tesscut_branch in H.
    destruct (fetch_tesscut_path _ _ _) as [path|exc] eqn:Hf.
    + right. eauto.
    + left. exists exc. split; [reflexivity|].
      destruct (contains "504" (str_exc exc)) eqn:H5; simpl in H;
        injection H as H; [|discriminate]. auto.
  - right. split; [reflexivity|]. unfold archive_branch in H. simpl in H.
    destruct (download_products r) as [path|e] eqn:Hd; simpl in H.
    + right. eauto.
    + left. congruence.
Qed.


End DownloadOneExtras.

(** A stand-in for the services: rows are their own description and
    target name, the cutout service times out, the archive raises an
    [HTTPError] for a row named "offline". *)
Definition toy_fetch (target : string) (sector : Z) (size : option unit) : outcome string :=
  Raise (OtherError "504 Gateway Timeout").

Definition toy_str_exc (e : search_error) : string :=
  match e with
  | SearchError m | ResolverError m | HTTPError m | OtherError m => m
  | PyError _ => ""
  end.

Definition toy_download_products (r : string) : outcome string :=
  if String.eqb r "offline" then Raise (HTTPError "503 Service Unavailable")
  else Done ("/tmp/" ++ r).

Definition toy_read (path : string) (targetid : option string) : outcome unit := Done tt.

Definition toy_dl := download_one string unit unit (fun r => r) (fun r => r) (fun r => r)
  (fun _ => 14%Z) toy_fetch toy_str_exc toy_download_products toy_read.

Lemma download_one_http_error_witness :
  snd (toy_dl ["TESS FFI Cutout (sector 14)"] None) =
    Raise (HTTPError (tesscut_unavailable ++ "504 Gateway Timeout")) /\
  exists r rest, ["TESS FFI Cutout (sector 14)"] = r :: rest /\
  ((contains "FFI Cutout" r = true /\
    ((exists exc, toy_fetch r 14%Z None = Raise exc /\
       contains "504" (toy_str_exc exc) = true /\
       tesscut_unavailable ++ "504 Gateway Timeout" = tesscut_unavailable ++ toy_str_exc exc) \/
     (exists path, toy_fetch r 14%Z None = Done path /\
       toy_read path (Some r) =
         Raise (HTTPError (tesscut_unavailable ++ "504 Gateway Timeout"))))) \/
   (contains "FFI Cutout" r = false /\
    (toy_download_products r =
       Raise (HTTPError (tesscut_unavailable ++ "504 Gateway Timeout")) \/
     exists path, toy_download_products r = Done path /\
       toy_read path None =
         Raise (HTTPError (tesscut_unavailable ++ "504 Gateway Timeout"))))).
Proof.
  assert (H : snd (toy_dl ["TESS FFI Cutout (sector 14)"] None) =
                Raise (HTTPError (tesscut_unavailable ++ "504 Gateway Timeout")))
    by reflexivity.
  split; [exact H|].
  exact (download_one_http_error string unit unit (fun r => r) (fun r => r) (fun r => r)
           (fun _ => 14%Z) toy_fetch toy_str_exc toy_download_products toy_read _ _ _ H).
Defined.


End DownloadOneExtras.

Module LabelExtras.
Import Resolver Labels ResolverFacts.

(** ** The [observation] column *)

Definition nl : ascii := ascii_of_nat 10.








(** When the first line of a Kepler description has no "Q" at all, the
    regex finds nothing on it; with no "Q" followed by a digit anywhere the
    label is left as "Kepler Quarter " with a trailing space. *)
Theorem kepler_masked_label_no_quarter : forall desc,
  forallb (fun c => negb (Ascii.eqb c "Q")) (list_ascii_of_string desc) = true ->
  observation_label "Kepler" Masked desc = "Kepler Quarter "%string.
Proof.
  intros desc H. unfold observation_label, findall_q_first. simpl.
  assert (Hgo : forall s, forallb (fun c => negb (Ascii.eqb c "Q"))
                            (list_ascii_of_string s) = true ->
                          findall_q_go s None = None).
  { induction s as [|c s IH]; intros Hs; simpl in *; [reflexivity|].
    apply andb_prop in Hs as [Hc Hs]. apply negb_true_iff in Hc. rewrite Hc.
    destruct (Ascii.eqb c (ascii_of_nat 10)); now apply IH. }
  rewrite (Hgo desc H). reflexivity.
Qed.

Lemma kepler_masked_label_no_quarter_witness :
  observation_label "Kepler" Masked "Target Pixel Short Cadence (TPS)" =
    "Kepler Quarter "%string.
Proof.
  apply kepler_masked_label_no_quarter. reflexivity.
Defined.

End LabelExtras.

Module SearchResultExtras.
Import Filters SearchResultM.

(** ** [SearchResult.__getitem__] *)

Section SearchResultExtras.

Variable Row : Type.





(** An integer key [k] with [-len <= k < len] selects the row at [k]
    (counted from the end when [k] is negative) and gives a one-row result
    numbered [0]. *)
Theorem getitem_int_in_range : forall (t : list (numbered Row)) k,
  (- Z.of_nat (length t) <= k < Z.of_nat (length t))%Z ->
  exists r, nth_error t (Z.to_nat (if (k <? 0)%Z then k + Z.of_nat (length t) else k)%Z)
              = Some r /\
            getitem Row t (KInt k) = Ok [(Some 0%nat, snd r)].
Proof.
  intros t k Hk. unfold getitem.
  set (n := length t) in *.
  set (k' := if (k =? -1)%Z then (Z.of_nat n - 1)%Z else k).
  assert (Hidx : py_index n k' =
                 Some (Z.to_nat (if (k <? 0)%Z then k + Z.of_nat n else k)%Z)).
  { unfold py_index, k'.
    destruct (Z.eqb_spec k (-1)) as [->|Hne].
    - replace (Z.of_nat n - 1 <? 0)%Z with false by (symmetry; apply Z.ltb_ge; lia).
      replace ((0 <=? Z.of_nat n - 1) && (Z.of_nat n - 1 <? Z.of_nat n))%Z with true
        by (symmetry; apply andb_true_iff; split; [apply Z.leb_le | apply Z.ltb_lt]; lia).
      replace ((-1 <? 0)%Z) with true by reflexivity. f_equal. lia.
    - destruct (Z.ltb_spec k 0).
      + replace ((0 <=? k + Z.of_nat n) && (k + Z.of_nat n <? Z.of_nat n))%Z with true
          by (symmetry; apply andb_true_iff; split; [apply Z.leb_le | apply Z.ltb_lt]; lia).
        reflexivity.
      + replace ((0 <=? k) && (k <? Z.of_nat n))%Z with true
          by (symmetry; apply andb_true_iff; split; [apply Z.leb_le | apply Z.ltb_lt]; lia).
        reflexivity. }
  fold k'. rewrite Hidx.
  destruct (nth_error t _) as [[c r]|] eqn:Hn.
  - exists (c, r). split; reflexivity.
  - exfalso. apply nth_error_None in Hn. fold n in Hn.
    destruct (Z.ltb_spec k 0); lia.
Qed.

(** Any other integer key raises [IndexError]; so does [-1] on an empty
    result, despite the special case for it. *)
Theorem getitem_int_out_of_range : forall (t : list (numbered Row)) k,
  (k < - Z.of_nat (length t) \/ Z.of_nat (length t) <= k)%Z ->
  getitem Row t (KInt k) = Err IndexError.
Proof.
  intros t k Hk. unfold getitem.
  set (n := length t) in *.
  destruct (Z.eqb_spec k (-1)) as [->|Hne].
  - assert (n = 0%nat) by lia. rewrite H. reflexivity.
  - unfold py_index.
    destruct (Z.ltb_spec k 0).
    + replace ((0 <=? k + Z.of_nat n) && (k + Z.of_nat n <? Z.of_nat n))%Z with false
        by (symmetry; apply andb_false_iff; left; apply Z.leb_gt; lia).
      reflexivity.
    + replace ((0 <=? k) && (k <? Z.of_nat n))%Z with false
        by (symmetry; apply andb_false_iff; right; apply Z.ltb_ge; lia).
      reflexivity.
Qed.


End SearchResultExtras.

Lemma getitem_int_in_range_witness :
  exists r, nth_error [(Some 0%nat, "a"%string); (Some 1%nat, "b"%string);
                       (Some 2%nat, "c"%string)]
              (Z.to_nat (if (-2 <? 0)%Z then -2 + 3 else -2)%Z) = Some r /\
    getitem string [(Some 0%nat, "a"%string); (Some 1%nat, "b"%string);
                    (Some 2%nat, "c"%string)] (KInt (-2)) = Ok [(Some 0%nat, snd r)].
Proof.
  apply (getitem_int_in_range string
           [(Some 0%nat, "a"%string); (Some 1%nat, "b"%string); (Some 2%nat, "c"%string)]
           (-2)%Z).
  simpl. lia.
Defined.

Lemma getitem_int_out_of_range_witness :
  getitem string [] (KInt (-1)) = Err IndexError.
Proof.
  apply getitem_int_out_of_range. simpl. lia.
Defined.

End SearchResultExtras.

Module SearchExtras.
Import PyStr Resolver Filters Search FilterFacts.

(** ** [_query_mast] and [_search_products] *)

Lemma dict_get_set_eq : forall k v d, dict_get k (dict_set k v d) = Some v.
Proof.
  intros k v d. induction d as [|[k' v'] d IH]; simpl.
  - now rewrite String.eqb_refl.
  - destruct (String.eqb k k') eqn:E; simpl.
    + now rewrite String.eqb_refl.
    + now rewrite E.
Qed.

Lemma dict_get_set_neq : forall k k' v d,
  k <> k' -> dict_get k' (dict_set k v d) = dict_get k' d.
Proof.
  intros k k' v d Hne. induction d as [|[k0 v0] d IH]; simpl.
  - apply String.eqb_neq in Hne. rewrite String.eqb_sym, Hne. reflexivity.
  - destruct (String.eqb k k0) eqn:E; simpl.
    + apply String.eqb_eq in E; subst k0.
      apply String.eqb_neq in Hne. now rewrite String.eqb_sym, Hne.
    + destruct (String.eqb k' k0); [reflexivity|exact IH].
Qed.


(** The keys [_search_products] can send to MAST. *)
Definition mast_keys : list string :=
  ["project"; "dataproduct_type"; "provenance_name"; "sequence_number"; "t_exptime";
   "target_name"; "radius"; "objectname"].

(** The extra criteria [_search_products] builds for a filetype. *)
Definition search_extra (filetype : string) : criteria :=
  if mem filetype ["Lightcurve"; "Target Pixel"]
  then [("dataproduct_type", QStrs ["cube"; "timeseries"])] else [].

Definition exptime_q (t : option (Z * Z)) : option qval :=
  match t with Some (lo, hi) => Some (QRange lo hi) | None => None end.

Lemma search_extra_criteria : forall filetype project prov t seq,
  let qc := query_criteria project prov t seq (search_extra filetype) in
  dict_get "project" qc = Some (QStrs project) /\
  dict_get "provenance_name" qc = option_map QStrs prov /\
  dict_get "sequence_number" qc = option_map QSeq seq /\
  dict_get "t_exptime" qc = exptime_q t /\
  dict_get "dataproduct_type" qc =
    (if mem filetype ["Lightcurve"; "Target Pixel"]
     then Some (QStrs ["cube"; "timeseries"]) else None) /\
  dict_get "target_name" qc = None /\ dict_get "radius" qc = None /\
  dict_get "objectname" qc = None /\
  (forall k, In k (map fst qc) -> In k mast_keys).
Proof.
  intros filetype project prov t seq qc. subst qc. unfold search_extra.
  destruct (mem filetype ["Lightcurve"; "Target Pixel"]);
    destruct prov; destruct seq; destruct t as [[lo hi]|];
    (split; [reflexivity|]); (split; [reflexivity|]); (split; [reflexivity|]);
    (split; [reflexivity|]); (split; [reflexivity|]);
    (split; [reflexivity|]); (split; [reflexivity|]); (split; [reflexivity|]);
    intros k Hk; simpl in Hk; unfold mast_keys; simpl; tauto.
Qed.

Lemma str_length_app : forall s1 s2,
  String.length (s1 ++ s2) = (String.length s1 + String.length s2)%nat.
Proof. induction s1 as [|c s1 IH]; intros s2; simpl; [reflexivity|now rewrite IH]. Qed.

Lemma zeros_length : forall n, String.length (zeros n) = n.
Proof. induction n as [|n IH]; simpl; [reflexivity|now rewrite IH]. Qed.

Lemma zfill_nonempty : forall d, zfill 9 d <> ""%string.
Proof.
  intros d H.
  assert (L : (9 <= String.length (zfill 9 d))%nat)
    by (unfold zfill; rewrite str_length_app, zeros_length; lia).
  rewrite H in L. simpl in L. lia.
Qed.

(** [exact_target_name] is never the empty string, so the truthiness test
    of [_query_mast] only checks that a name was found. *)
Lemma exact_target_name_nonempty : forall s name,
  exact_target_name s = Some name -> name <> ""%string.
Proof.
  intros s name H. unfold exact_target_name in H.
  destruct (tess_match (lower s)) as [d|].
  - injection H as <-. apply zfill_nonempty.
  - destruct (ktwo_match (lower s)) as [d|].
    + injection H as <-. discriminate.
    + destruct (kplr_match (lower s)) as [d|]; [|discriminate].
      injection H as <-. discriminate.
Qed.

Definition cutout_order (a b : cutout) : Prop := cutout_le a b = true.

Lemma cutout_le_total : forall a b, cutout_le a b = false -> cutout_le b a = true.
Proof.
  intros a b H. unfold cutout_le in *.
  apply orb_false_iff in H as [H1 H2]. apply Z.ltb_ge in H1.
  destruct (Z.eqb_spec (cut_distance a) (cut_distance b)) as [E|E]; simpl in H2.
  - apply Z.leb_gt in H2. rewrite E, Z.ltb_irrefl, Z.eqb_refl. simpl.
    apply Z.leb_le. lia.
  - apply orb_true_iff. left. apply Z.ltb_lt. lia.
Qed.

Lemma insert_cutout_hd : forall y x l,
  HdRel cutout_order y l -> cutout_order y x -> HdRel cutout_order y (insert_cutout x l).
Proof.
  intros y x [|z l] H Hyx; simpl; [now constructor|].
  destruct (cutout_le x z); constructor; [exact Hyx|]. now inversion H.
Qed.

Lemma insert_cutout_sorted : forall x l,
  Sorted cutout_order l -> Sorted cutout_order (insert_cutout x l).
Proof.
  intros x l H. induction H as [|y l Hl IH Hhd]; simpl; [now repeat constructor|].
  destruct (cutout_le x y) eqn:E.
  - constructor; [now constructor|]. now constructor.
  - constructor; [exact IH|]. apply insert_cutout_hd; [exact Hhd|].
    now apply cutout_le_total.
Qed.

Lemma sort_cutouts_sorted : forall l, Sorted cutout_order (sort_cutouts l).
Proof.
  induction l as [|x l IH]; simpl; [constructor|]. now apply insert_cutout_sorted.
Qed.

Lemma insert_cutout_perm : forall x l, Permutation (x :: l) (insert_cutout x l).
Proof.
  intros x l. induction l as [|y l IH]; simpl; [reflexivity|].
  destruct (cutout_le x y); [reflexivity|].
  rewrite perm_swap. now constructor.
Qed.

Lemma sort_cutouts_perm : forall l, Permutation l (sort_cutouts l).
Proof.
  induction l as [|x l IH]; simpl; [reflexivity|].
  rewrite <- insert_cutout_perm. now constructor.
Qed.

Lemma Sorted_weaken : forall {A} (R R' : A -> A -> Prop) (l : list A),
  (forall a b, In a l -> In b l -> R a b -> R' a b) -> Sorted R l -> Sorted R' l.
Proof.
  intros A R R' l HRR H. induction H as [|y l Hl IH Hhd]; constructor.
  - apply IH. intros a b Ha Hb. apply HRR; now right.
  - destruct Hhd as [|z l' Hz]; constructor. apply HRR; simpl; auto.
Qed.

Section SearchExtras.

Variable Radius : Type.
Variable default_radius : Radius.
Variable radius_deg : Radius -> string.
Variable mast : criteria -> outcome (list observation).
Variable products_of : list observation -> list row.
Variable lookup_table : list lookup_row.

Let qm := query_mast_full Radius default_radius radius_deg mast.
Let sp := search_products Radius default_radius radius_deg mast products_of lookup_table.



Lemma search_products_calls : forall t radius filetype cadence mission prov texp
    quarter month campaign sector limit extra,
  fst (sp t radius filetype cadence mission prov texp quarter month campaign sector
          limit extra) =
  fst (qm (str_target t)
          (if String.eqb (lower filetype) "ffi" && is_none radius then Some default_radius
           else radius)
          (atleast_1d_str mission) (normalize_provenance prov) texp
          (py_or_seq campaign sector) (search_extra filetype)).
Proof.
  intros. unfold sp, search_products, qm, search_extra.
  destruct (query_mast_full _ _ _ _ _ _ _ _ _ _ _); reflexivity.
Qed.

(** The ffi search always makes exactly one MAST query, a cone search:
    with the given radius, or [.0001 arcsec] when there is none; it never
    queries by exact target name. *)
Theorem ffi_single_cone_search : forall t radius filetype cadence mission prov texp
    quarter month campaign sector limit extra,
  lower filetype = "ffi"%string ->
  exists c, fst (sp t radius filetype cadence mission prov texp quarter month campaign
                    sector limit extra) = [c] /\
    dict_get "objectname" c = Some (QStr (str_target t)) /\
    dict_get "radius" c =
      Some (QStr (radius_deg (match radius with Some r => r | None => default_radius end))) /\
    dict_get "target_name" c = None.
Proof.
  intros t radius filetype cadence mission prov texp quarter month campaign sector limit
    extra Hffi.
  unfold sp, search_products. rewrite Hffi. simpl (String.eqb "ffi" "ffi").
  set (r := match radius with Some r => r | None => default_radius end).
  assert (Hr : (if true && is_none radius then Some default_radius else radius) = Some r)
    by (subst r; destruct radius; reflexivity).
  rewrite Hr. clear Hr.
  destruct (search_extra_criteria filetype (atleast_1d_str mission)
              (normalize_provenance prov) texp (py_or_seq campaign sector))
    as (_ & _ & _ & _ & _ & Htn & _ & _ & _).
  fold (search_extra filetype).
  set (qc := query_criteria _ _ _ _ (search_extra filetype)) in *.
  unfold query_mast_full. fold qc.
  eexists. split.
  - destruct (exact_target_name (str_target t)); reflexivity.
  - split; [apply dict_get_set_eq|].
    split; [rewrite dict_get_set_neq by discriminate; apply dict_get_set_eq|].
    rewrite !dict_get_set_neq by discriminate. exact Htn.
Qed.

(** For a target with an exact MAST name and no radius, a light curve or
    target pixel file search first queries that [target_name] (without a
    radius or an object name); only when MAST returns no observation for
    it does a second query, a cone search of [.0001 arcsec], follow. *)
Theorem exact_name_query_first : forall t filetype cadence mission prov texp
    quarter month campaign sector limit extra name,
  lower filetype <> "ffi"%string ->
  exact_target_name (str_target t) = Some name ->
  exists c1 rest,
    fst (sp t None filetype cadence mission prov texp quarter month campaign sector
            limit extra) = c1 :: rest /\
    dict_get "target_name" c1 = Some (QStr name) /\
    dict_get "objectname" c1 = None /\ dict_get "radius" c1 = None /\
    match mast c1 with
    | Done [] => exists c2, rest = [c2] /\
        dict_get "objectname" c2 = Some (QStr (str_target t)) /\
        dict_get "radius" c2 = Some (QStr (radius_deg default_radius)) /\
        dict_get "target_name" c2 = None
    | _ => rest = []
    end.
Proof.
  intros t filetype cadence mission prov texp quarter month campaign sector limit extra
    name Hffi Hname.
  rewrite search_products_calls.
  apply String.eqb_neq in Hffi. rewrite Hffi. simpl (false && _).
  destruct (search_extra_criteria filetype (atleast_1d_str mission)
              (normalize_provenance prov) texp (py_or_seq campaign sector))
    as (_ & _ & _ & _ & _ & Htn & Hr & Ho & _).
  set (qc := query_criteria _ _ _ _ (search_extra filetype)) in *.
  unfold qm, query_mast_full. fold qc. rewrite Hname.
  pose proof (exact_target_name_nonempty _ _ Hname) as Hne.
  apply String.eqb_neq in Hne. rewrite Hne.
  exists (dict_set "target_name" (QStr name) qc).
  destruct (mast (dict_set "target_name" (QStr name) qc)) as [obs|e] eqn:Hm.
  - destruct obs as [|o os].
    + eexists. split; [reflexivity|].
      split; [apply dict_get_set_eq|].
      split; [rewrite dict_get_set_neq by discriminate; exact Ho|].
      split; [rewrite dict_get_set_neq by discriminate; exact Hr|].
      eexists. split; [reflexivity|].
      split; [apply dict_get_set_eq|].
      split; [rewrite dict_get_set_neq by discriminate; apply dict_get_set_eq|].
      rewrite !dict_get_set_neq by discriminate. exact Htn.
    + exists []. split; [reflexivity|].
      split; [apply dict_get_set_eq|].
      split; [rewrite dict_get_set_neq by discriminate; exact Ho|].
      split; [rewrite dict_get_set_neq by discriminate; exact Hr|].
      reflexivity.
  - exists []. split; [reflexivity|].
    split; [apply dict_get_set_eq|].
    split; [rewrite dict_get_set_neq by discriminate; exact Ho|].
    split; [rewrite dict_get_set_neq by discriminate; exact Hr|].
    reflexivity.
Qed.

Lemma query_mast_empty : forall target_str radius project prov texp seq extra,
  (forall c, mast c = Done []) ->
  snd (qm target_str radius project prov texp seq extra) = Done [].
Proof.
  intros target_str radius project prov texp seq extra Hm.
  unfold qm, query_mast_full.
  destruct (exact_target_name target_str) as [name|]; [destruct radius|];
    try (simpl; rewrite Hm; reflexivity).
  destruct (String.eqb name ""); [simpl; rewrite Hm; reflexivity|].
  rewrite Hm. simpl. rewrite Hm. reflexivity.
Qed.

Lemma search_products_empty : forall t radius filetype cadence mission prov texp
    quarter month campaign sector limit extra,
  (forall c, mast c = Done []) ->
  snd (sp t radius filetype cadence mission prov texp quarter month campaign sector
          limit extra) =
    Raise (SearchError ("No data found for target " ++ dquote ++ str_target t ++ dquote
                        ++ ".")).
Proof.
  intros t radius filetype cadence mission prov texp quarter month campaign sector limit
    extra Hm.
  unfold sp, search_products.
  match goal with
  | |- context [query_mast_full _ _ _ _ ?ts ?rad ?p ?pv ?te ?sq ?ex] =>
      pose proof (query_mast_empty ts rad p pv te sq ex Hm) as He;
      unfold qm in He;
      destruct (query_mast_full _ _ _ _ ts rad p pv te sq ex) as [calls res]
  end.
  simpl in He. subst res. reflexivity.
Qed.

(** When MAST finds no observation for any query, the three public
    searches catch the [SearchError] "No data found" and return an empty
    result. *)
Theorem searches_no_data : forall t radius cadence mission author quarter month
    campaign sector limit,
  (forall c, mast c = Done []) ->
  snd (search_lightcurve Radius default_radius radius_deg mast products_of lookup_table
         t radius cadence mission author quarter month campaign sector limit) = Done NoTable /\
  snd (search_targetpixelfile Radius default_radius radius_deg mast products_of
         lookup_table t radius cadence mission author quarter month campaign sector limit)
    = Done NoTable /\
  snd (search_tesscut Radius default_radius radius_deg mast products_of lookup_table
         t sector) = Done NoTable.
Proof.
  intros t radius cadence mission author quarter month campaign sector limit Hm.
  unfold search_lightcurve, search_targetpixelfile, search_tesscut, catch_search_error.
  repeat split;
    match goal with
    | |- context [search_products ?R ?d ?rd ?m ?po ?lt ?t0 ?r0 ?ft ?cd ?ms ?pv ?te ?q ?mo
                                  ?ca ?se ?li ?ex] =>
        pose proof (search_products_empty t0 r0 ft cd ms pv te q mo ca se li ex Hm) as He;
        unfold sp in He;
        destruct (search_products R d rd m po lt t0 r0 ft cd ms pv te q mo ca se li ex)
          as [calls res]
    end; simpl in He |- *; subst res; reflexivity.
Qed.


Lemma tesscut_table_shape : forall t sector tbl,
  snd (search_tesscut Radius default_radius radius_deg mast products_of lookup_table
         t sector) = Done tbl ->
  tbl = NoTable \/
  exists cs, tbl = CutoutTable cs /\ cs <> [] /\
    Sorted (fun a b => (cut_sequence_number a <= cut_sequence_number b)%Z) cs /\
    forall c, In c cs -> exists s, c = make_cutout (str_target t) s /\
                                   sector_ok sector s = true.
Proof.
  intros t sector tbl H.
  unfold search_tesscut, catch_search_error, search_products in H.
  destruct (query_mast_full _ _ _ _ _ _ _ _ _ _ _) as [calls res].
  simpl in H. destruct res as [obs|e]; simpl in H.
  - destruct (length obs =? 0)%nat; [injection H as <-; now left|].
    simpl in H.
    set (cs := ffi_cutouts (str_target t) sector obs) in H.
    destruct (0 <? length cs)%nat eqn:Hl; injection H as <-; [right|now left].
    assert (Hmem : forall c, In c cs -> exists s, c = make_cutout (str_target t) s /\
                                                  sector_ok sector s = true).
    { intros c Hc. unfold cs, ffi_cutouts in Hc. apply in_map_iff in Hc as (o & <- & Ho).
      apply filter_In in Ho as [_ Ho]. apply andb_prop in Ho as [_ Ho]. eauto. }
    exists (sort_cutouts cs). split; [reflexivity|]. split.
    + intro E. apply Nat.ltb_lt in Hl.
      pose proof (Permutation_length (sort_cutouts_perm cs)) as Hlen.
      rewrite E in Hlen. simpl in Hlen. lia.
    + split.
      * apply (Sorted_weaken cutout_order); [|apply sort_cutouts_sorted].
        intros a b Ha Hb Hab.
        apply (Permutation_in _ (Permutation_sym (sort_cutouts_perm cs))) in Ha, Hb.
        destruct (Hmem a Ha) as (sa & -> & _). destruct (Hmem b Hb) as (sb & -> & _).
        unfold cutout_order, cutout_le in Hab. simpl in Hab.
        apply Z.leb_le. exact Hab.
      * intros c Hc. apply Hmem.
        exact (Permutation_in _ (Permutation_sym (sort_cutouts_perm cs)) Hc).
  - destruct e; try discriminate. injection H as <-. now left.
Qed.


(** The product table of a light curve or target pixel file search is
    sorted by distance and file name and holds only FITS files. *)
Theorem search_products_table_sorted : forall t radius filetype cadence mission prov texp
    quarter month campaign sector limit extra rows,
  snd (sp t radius filetype cadence mission prov texp quarter month campaign sector
          limit extra) = Done (ProductTable rows) ->
  StronglySorted row_order rows /\
  Forall (fun r => fits_filename (productFilename r) = true) rows.
Proof.
  intros t radius filetype cadence mission prov texp quarter month campaign sector limit
    extra rows H.
  unfold sp, search_products in H.
  destruct (query_mast_full _ _ _ _ _ _ _ _ _ _ _) as [calls res].
  simpl in H. destruct res as [obs|e]; simpl in H; [|discriminate].
  destruct (length obs =? 0)%nat; [discriminate|].
  destruct (negb _).
  - destruct (filter_products _ _ _ _ _ _ _ _ _ _) as [out|e] eqn:Hf; simpl in H;
      [|discriminate].
    injection H as <-. split.
    + destruct (filter_products_ok _ _ _ _ _ _ _ _ _ _ _ Hf) as (m & _ & ->).
      apply apply_limit_sorted, sort_rows_sorted.
    + apply Forall_forall. intros x Hx.
      destruct (filter_products_In _ _ _ _ _ _ _ _ _ _ _ x Hf Hx) as (_ & _ & _ & _ & _ & Hfits).
      exact Hfits.
  - destruct (0 <? length _)%nat; discriminate.
Qed.

End SearchExtras.

Section TesscutDownload.

Variable Radius : Type.
Variable default_radius : Radius.
Variable radius_deg : Radius -> string.
Variable mast : criteria -> outcome (list observation).
Variable products_of : list observation -> list row.
Variable lookup_table : list lookup_row.
Variables Product CutoutSize : Type.
Variable fetch_tesscut_path : string -> Z -> option CutoutSize -> outcome string.
Variable str_exc : search_error -> string.
Variable download_products : cutout -> outcome string.
Variable read : string -> option string -> outcome Product.

Lemma make_cutout_is_ffi : forall target_str s,
  contains "FFI Cutout" (cut_description (make_cutout target_str s)) = true.
Proof. intros. reflexivity. Qed.

(** Downloading from a [search_tesscut] result takes the TESSCut branch of
    [_download_one] for every one of its rows, and asks the cutout service
    for the searched target and the row's sector. *)
Theorem tesscut_rows_download_as_cutouts : forall t sector cs c rest cutout_size,
  snd (search_tesscut Radius default_radius radius_deg mast products_of lookup_table
         t sector) = Done (CutoutTable cs) ->
  In c cs ->
  DownloadOne.download_one cutout Product CutoutSize cut_description cut_target_name
    cut_targetid cut_sequence_number fetch_tesscut_path str_exc download_products read
    (c :: rest) cutout_size =
  match fetch_tesscut_path (str_target t) (cut_sequence_number c) cutout_size with
  | Done path => ([], read path (Some (str_target t)))
  | Raise exc =>
      let msg := str_exc exc in
      if contains "504" msg then ([], Raise (HTTPError (DownloadOne.tesscut_unavailable ++ msg)))
      else ([], Raise (SearchError (DownloadOne.tesscut_edge ++ msg)))
  end.
Proof.
  intros t sector cs c rest cutout_size H Hc.
  destruct (tesscut_table_shape _ _ _ _ _ _ _ _ _ H) as [E|(cs' & E & _ & _ & Hmem)];
    [discriminate|].
  injection E as <-. destruct (Hmem c Hc) as (s & -> & _).
  unfold DownloadOne.download_one. rewrite make_cutout_is_ffi. reflexivity.
Qed.

End TesscutDownload.
End SearchExtras.

Module SearchWitnesses.
Import Resolver Filters Search SearchExtras Claims Claims2.
Local Open Scope Z_scope.

(** Stand-ins for MAST: a radius is a number of arcseconds; a MAST that
    finds nothing; one whose name resolver fails; one that knows a target
    only by cone search, with two TESS FFI sectors and a Kepler
    observation. *)
Definition toy_radius_deg (r : Z) : string := "2.77778e-08 deg".

Definition mast_nothing (c : criteria) : outcome (list observation) := Done [].


Definition mast_cone_only (c : criteria) : outcome (list observation) :=
  match dict_get "objectname" c with
  | Some _ => Done [mkObs "TESS FFI" 14 5; mkObs "TESS FFI" 13 5;
                    mkObs "kplr011904151" 0 3]
  | None => Done []
  end.

Definition toy_products (obs : list observation) : list row :=
  [far_row; sample_kepler_row].


Lemma ffi_single_cone_search_witness :
  exists c, fst (search_products Z 1 toy_radius_deg mast_nothing toy_products []
                   (TStr "KIC 11904151") None "FFI" "long" (AStr "TESS") None
                   default_exptime None None None None None []) = [c] /\
    dict_get "objectname" c = Some (QStr (str_target (TStr "KIC 11904151"))) /\
    dict_get "radius" c = Some (QStr (toy_radius_deg 1)) /\
    dict_get "target_name" c = None.
Proof.
  apply (ffi_single_cone_search Z 1 toy_radius_deg mast_nothing toy_products []
           (TStr "KIC 11904151") None "FFI" "long" (AStr "TESS") None default_exptime
           None None None None None []).
  reflexivity.
Defined.

Lemma exact_name_query_first_witness :
  exists c1 rest,
    fst (search_products Z 1 toy_radius_deg mast_cone_only toy_products []
           (TStr "KIC 11904151") None "Lightcurve" "long" (AStr "Kepler") None
           default_exptime None None None None None []) = c1 :: rest /\
    dict_get "target_name" c1 = Some (QStr "kplr011904151") /\
    dict_get "objectname" c1 = None /\ dict_get "radius" c1 = None /\
    match mast_cone_only c1 with
    | Done [] => exists c2, rest = [c2] /\
        dict_get "objectname" c2 = Some (QStr (str_target (TStr "KIC 11904151"))) /\
        dict_get "radius" c2 = Some (QStr (toy_radius_deg 1)) /\
        dict_get "target_name" c2 = None
    | _ => rest = []
    end.
Proof.
  apply (exact_name_query_first Z 1 toy_radius_deg mast_cone_only toy_products []
           (TStr "KIC 11904151") "Lightcurve" "long" (AStr "Kepler") None default_exptime
           None None None None None [] "kplr011904151").
  - vm_compute. discriminate.
  - vm_compute. reflexivity.
Defined.

Lemma searches_no_data_witness :
  snd (search_lightcurve Z 1 toy_radius_deg mast_nothing toy_products []
         (TStr "Kepler-10") None "long" (AStr "Kepler") None None None None None None)
    = Done NoTable /\
  snd (search_targetpixelfile Z 1 toy_radius_deg mast_nothing toy_products []
         (TStr "Kepler-10") None "long" (AStr "Kepler") None None None None None None)
    = Done NoTable /\
  snd (search_tesscut Z 1 toy_radius_deg mast_nothing toy_products []
         (TStr "Kepler-10") None) = Done NoTable.
Proof.
  apply searches_no_data. intro c. reflexivity.
Defined.



Lemma search_products_table_sorted_witness :
  snd (search_products Z 1 toy_radius_deg mast_cone_only toy_products []
         (TStr "Kepler-10") None "Target Pixel" "long" (AStr "Kepler") None default_exptime
         None None None None None []) = Done (ProductTable [sample_kepler_row; far_row]) /\
  StronglySorted row_order [sample_kepler_row; far_row] /\
  Forall (fun r => fits_filename (productFilename r) = true) [sample_kepler_row; far_row].
Proof.
  assert (H : snd (search_products Z 1 toy_radius_deg mast_cone_only toy_products []
         (TStr "Kepler-10") None "Target Pixel" "long" (AStr "Kepler") None default_exptime
         None None None None None []) = Done (ProductTable [sample_kepler_row; far_row]))
    by (vm_compute; reflexivity).
  split; [exact H|].
  exact (search_products_table_sorted Z 1 toy_radius_deg mast_cone_only toy_products []
           _ _ _ _ _ _ _ _ _ _ _ _ _ _ H).
Defined.

Definition toy_fetch (target : string) (sector : Z) (size : option unit) : outcome string :=
  Done ("tess-s00" ++ str_of_Z sector ++ "-astrocut.fits").

Definition toy_str_exc (e : search_error) : string :=
  match e with
  | SearchError m | ResolverError m | HTTPError m | OtherError m => m
  | PyError _ => ""
  end.

Definition toy_read (path : string) (targetid : option string) : outcome string :=
  Done path.

Lemma tesscut_rows_download_as_cutouts_witness :
  DownloadOne.download_one cutout string unit cut_description cut_target_name
    cut_targetid cut_sequence_number toy_fetch toy_str_exc (fun _ => Done "") toy_read
    [make_cutout "KIC 11904151" 14] None =
  match toy_fetch (str_target (TStr "KIC 11904151"))
          (cut_sequence_number (make_cutout "KIC 11904151" 14)) None with
  | Done path => ([], toy_read path (Some (str_target (TStr "KIC 11904151"))))
  | Raise exc =>
      let msg := toy_str_exc exc in
      if contains "504" msg
      then ([], Raise (HTTPError (DownloadOne.tesscut_unavailable ++ msg)))
      else ([], Raise (SearchError (DownloadOne.tesscut_edge ++ msg)))
  end.
Proof.
  apply (tesscut_rows_download_as_cutouts Z 1 toy_radius_deg mast_cone_only toy_products []
           string unit toy_fetch toy_str_exc (fun _ => Done "") toy_read
           (TStr "KIC 11904151") None
           [make_cutout "KIC 11904151" 13; make_cutout "KIC 11904151" 14]).
  - vm_compute. reflexivity.
  - simpl. auto.
Defined.

End SearchWitnesses.
